(** * EasyTierDashboard: the refresh and presentation contract

    A shallow embedding of [src/components/EasyTierDashboard.tsx]: the
    formatting helpers of the table rows, the classification of the
    connection mode, the four-way choice of the main panel and the
    [fetchNodes] poll, followed by the properties the specification
    states about them.

    Numbers are binary64 values with the arithmetic of [SpecFloat] and
    their two printers, [toString] and [toFixed]; strings are byte
    strings. The component's state, its notifications and its exceptions
    are threaded through a small state-and-exception monad, and a call of
    [fetchNodes] is cut at its suspension point so that calls in flight
    can interleave. *)

From Stdlib Require Import ZArith QArith Qround Qpower Qfield Lqa String Ascii List Bool Lia.
From Stdlib Require Import DecimalString DecimalN.
From Stdlib Require Import Floats.SpecFloat.
Import ListNotations.

Close Scope Q_scope.
Local Open Scope string_scope.

(** ** JavaScript numbers

    A JavaScript number is an IEEE 754 binary64 value; [spec_float] with a
    53-bit significand and [emax = 1024] is exactly that format, and the
    operations of [SpecFloat] round to nearest, ties to even. *)
Module JsNumber.

Local Open Scope Q_scope.

Definition prec : Z := 53.
Definition emax : Z := 1024.

Abbreviation number := spec_float.

(** The double nearest to an integer (an integer literal, or an integer
    product of literals such as [1024 * 1024]). *)
Definition of_Z (n : Z) : number := binary_normalize prec emax n 0 false.

(** The double nearest to the decimal literal [n / 10^d]: both are below
    [2^53] for the literals used here, hence are doubles themselves, and
    IEEE division rounds their quotient correctly. *)
Definition of_decimal (n : Z) (d : nat) : number :=
  SFdiv prec emax (of_Z n) (of_Z (10 ^ Z.of_nat d)).

Definition div (x y : number) : number := SFdiv prec emax x y.

(** [x > y]: false as soon as one side is [NaN]. *)
Definition gtb (x y : number) : bool := SFltb y x.

(** ToBoolean on a number: [0], [-0] and [NaN] are falsy. *)
Definition truthy (x : number) : bool :=
  match x with
  | S754_zero _ | S754_nan => false
  | _ => true
  end.

(** The magnitude of a finite number, as a rational: [m * 2^e]. It is
    [0] on the other numbers, where the callers do not use it. *)
Definition magnitude (x : number) : Q :=
  match x with
  | S754_finite _ m e => inject_Z (Z.pos m) * 2 ^ e
  | _ => 0
  end.

Definition pow10 (p : Z) : Q := 10 ^ p.

(** *** Decimal digits *)

Definition digits (n : Z) : string := NilZero.string_of_uint (N.to_uint (Z.to_N n)).

Fixpoint zeros (k : nat) : string :=
  match k with
  | O => ""
  | S k' => String "0" (zeros k')
  end.

(** The [f] low decimal digits of [r], most significant first. *)
Fixpoint frac_digits (f : nat) (r : Z) : string :=
  match f with
  | O => ""
  | S f' =>
      frac_digits f' (r / 10) ++
      String (ascii_of_nat (48 + Z.to_nat (r mod 10))) ""
  end.

(** *** Number::toString (radix 10)

    ECMAScript asks for integers [n], [k], [s] with [s] of [k] digits,
    [s * 10^(n-k)] a decimal that reads back as [x], and [k] as small as
    possible; among several [s], the one closest to [x]. The decimals that
    read back as [x = m * 2^e] are those of its rounding interval, which
    includes its bounds exactly when [m] is even (ties go to even). *)

Record interval := { lo : Q; hi : Q; closed : bool }.

Definition rounding_interval (m : positive) (e : Z) : interval :=
  let ulp := 2 ^ e in
  let x := inject_Z (Z.pos m) * ulp in
  let below :=
    if (Z.pos m =? 2 ^ (prec - 1))%Z && (3 - emax - prec <? e)%Z
    then ulp / 4 else ulp / 2 in
  {| lo := x - below; hi := x + ulp / 2; closed := Z.even (Z.pos m) |}.

(** The integers [s] with [s * 10^p] inside the interval. *)
Definition multiples (i : interval) (p : Z) : Z * Z :=
  let l := lo i / pow10 p in
  let h := hi i / pow10 p in
  if closed i then (Qceiling l, Qfloor h)
  else ((Qfloor l + 1)%Z, (Qceiling h - 1)%Z).

(** The integer nearest to [y], the even one on a tie. *)
Definition nearest_even (y : Q) : Z :=
  let f := Qfloor y in
  match Qcompare (y - inject_Z f) (1 # 2) with
  | Lt => f
  | Gt => (f + 1)%Z
  | Eq => if Z.even f then f else (f + 1)%Z
  end.

(** Largest [p], searched downwards, for which a multiple of [10^p] reads
    back as the number: the digits are then as few as possible. *)
Fixpoint shortest (fuel : nat) (i : interval) (x : Q) (p : Z) : Z * Z :=
  let '(smin, smax) := multiples i p in
  if (smin <=? smax)%Z
  then (Z.max smin (Z.min smax (nearest_even (x / pow10 p))), p)
  else
    match fuel with
    | O => (0%Z, p)
    | S fuel' => shortest fuel' i x (p - 1)
    end.

Definition exponent_part (e : Z) : string :=
  String "e" ((if (e <? 0)%Z then "-" else "+") ++ digits (Z.abs e)).

Definition render_shortest (s p : Z) : string :=
  let d := digits s in
  let k := Z.of_nat (String.length d) in
  let n := (k + p)%Z in
  if (k <=? n)%Z && (n <=? 21)%Z then d ++ zeros (Z.to_nat (n - k))
  else if (0 <? n)%Z && (n <=? 21)%Z then
    substring 0 (Z.to_nat n) d ++ String "." (substring (Z.to_nat n) (Z.to_nat (k - n)) d)
  else if (-6 <? n)%Z && (n <=? 0)%Z then
    "0." ++ zeros (Z.to_nat (- n)) ++ d
  else if (k =? 1)%Z then d ++ exponent_part (n - 1)
  else
    substring 0 1 d ++ String "." (substring 1 (Z.to_nat (k - 1)) d)
    ++ exponent_part (n - 1).

Definition toString (x : number) : string :=
  match x with
  | S754_nan => "NaN"
  | S754_zero _ => "0"
  | S754_infinity s => if s then "-Infinity" else "Infinity"
  | S754_finite s m e =>
      let '(d, p) := shortest 700 (rounding_interval m e) (magnitude x) 309 in
      (if s then "-" else "") ++ render_shortest d p
  end.

(** *** Number.prototype.toFixed

    Non-finite numbers and magnitudes from [10^21] on are printed by
    [toString]; otherwise the integer [n] nearest to [|x| * 10^f] (the
    larger one on a tie) is printed with a point before its last [f]
    digits, after a "-" when [x] is negative. *)

Definition round_half_up (y : Q) : Z := Qfloor (y + (1 # 2)).

Definition fixed_point (f : nat) (n : Z) : string :=
  match f with
  | O => digits n
  | _ => digits (n / 10 ^ Z.of_nat f) ++ String "." (frac_digits f n)
  end.

Definition toFixed (f : nat) (x : number) : string :=
  match x with
  | S754_finite s _ _ =>
      let v := magnitude x in
      if Qle_bool (pow10 21) v then toString x
      else (if s then "-" else "")
           ++ fixed_point f (round_half_up (v * pow10 (Z.of_nat f)))
  | S754_zero _ => fixed_point f 0
  | _ => toString x
  end.

End JsNumber.

(** ** JavaScript strings

    Strings are byte strings (UTF-8 text); the operations used by the
    component only look for ASCII characters, which never occur inside
    the encoding of another character. *)
Module JsString.

Definition is_upper (c : ascii) : bool :=
  (65 <=? nat_of_ascii c)%nat && (nat_of_ascii c <=? 90)%nat.

(** [toLowerCase] on the letters [A-Z]; no other character lowers to a
    letter of "local", "p2p" or "relay". *)
Definition lower (c : ascii) : ascii :=
  if is_upper c then ascii_of_nat (nat_of_ascii c + 32) else c.

Fixpoint toLowerCase (s : string) : string :=
  match s with
  | EmptyString => ""
  | String c s' => String (lower c) (toLowerCase s')
  end.

(** [s.includes(needle)]: [needle] starts at some position of [s]. *)
Fixpoint includes (s needle : string) : bool :=
  prefix needle s ||
  match s with
  | EmptyString => false
  | String _ s' => includes s' needle
  end.

(** [s.split(sep)] for a one-character separator: never empty. *)
Fixpoint split (sep : ascii) (s : string) : list string :=
  match s with
  | EmptyString => [""]
  | String c s' =>
      if Ascii.eqb c sep then "" :: split sep s'
      else
        match split sep s' with
        | piece :: pieces => String c piece :: pieces
        | [] => [String c ""]
        end
  end.

(** [v || d] on a string that may be absent ([undefined] or [null]): the
    empty string is falsy too. *)
Definition or_else (v : option string) (d : string) : string :=
  match v with
  | Some (String c s) => String c s
  | _ => d
  end.

Fixpoint join (sep : string) (l : list string) : string :=
  match l with
  | [] => ""
  | [s] => s
  | s :: l' => s ++ sep ++ join sep l'
  end.

End JsString.

Import JsNumber JsString.

(** ** The component *)

(** A field of a received record may be absent ([undefined] or [null]):
    the component guards every read with [||], [!] or a comparison. *)
Record Node := {
  virtual_ip : option string;
  public_addr : option string;
  cost : option string;
  latency_ms : option number;
  rx_bytes : option number;
  tx_bytes : option number;
  conn_type : option string
}.

(** What [response.json()] can resolve to. The elements of an array are
    node records, as the [Node] interface declares them; the entries of
    an object have distinct keys. *)
#[warnings="-register-all"]
Inductive JsonValue :=
| JNull
| JBool (b : bool)
| JNum (x : number)
| JStr (s : string)
| JArr (rows : list Node)
| JObj (entries : list (string * JsonValue)).

Definition API_URL : string := "http://118.31.43.162:4000/api/nodes".
Definition REFRESH_INTERVAL : Z := 10000.

(** *** Presentation helpers *)

Inductive Icon := Wifi | Link | Server.

Record Badge := {
  variant : string;
  className : string;
  icon : option Icon;
  children : string
}.

Definition localBadge : Badge :=
  {| variant := "secondary"; className := "bg-primary/10 text-primary";
     icon := Some Wifi; children := " 本地连接" |}.

Definition p2pBadge : Badge :=
  {| variant := "secondary"; className := "bg-success/10 text-success";
     icon := Some Link; children := " P2P 直连" |}.

Definition relayBadge : Badge :=
  {| variant := "secondary"; className := "bg-warning/10 text-warning";
     icon := Some Server; children := " 中继转发" |}.

Definition rawBadge (text : string) : Badge :=
  {| variant := "outline"; className := ""; icon := None; children := text |}.

Definition createStatusBadge (cost : option string) : Badge :=
  let mode := toLowerCase (or_else cost "unknown") in
  if includes mode "local" then localBadge
  else if includes mode "p2p" then p2pBadge
  else if includes mode "relay" then relayBadge
  else rawBadge (or_else cost "-").

Definition formatToMB (bytes : option number) : string :=
  match bytes with
  | Some b =>
      if negb (truthy b) then "0.00"
      else toFixed 2 (div b (of_Z (1024 * 1024)))
  | None => "0.00"
  end.

Definition cleanIp (node : Node) : string :=
  hd "" (split "/" (or_else (virtual_ip node) "")).

Definition latency (node : Node) : string :=
  match latency_ms node with
  | Some l => if gtb l (of_Z 0) then toFixed 1 l else "-"
  | None => "-"
  end.

(** One [<tr>] of the table body. *)
Record Row := {
  key : nat;
  animationDelay : string;
  ipCell : string;
  hostCell : string;
  modeCell : Badge;
  latencyCell : string;
  rxMb : string;
  txMb : string;
  tunnelCell : string
}.

Definition renderRow (node : Node) (index : nat) : Row :=
  {| key := index;
     animationDelay :=
       toString (SFmul prec emax (of_Z (Z.of_nat index)) (of_decimal 1 1)) ++ "s";
     ipCell := cleanIp node;
     hostCell := or_else (public_addr node) "-";
     modeCell := createStatusBadge (cost node);
     latencyCell := latency node;
     rxMb := formatToMB (rx_bytes node);
     txMb := formatToMB (tx_bytes node);
     tunnelCell := or_else (conn_type node) "-" |}.

(** [nodes.map((node, index) => ...)] *)
Fixpoint mapi_from {A B : Type} (f : A -> nat -> B) (i : nat) (l : list A) : list B :=
  match l with
  | [] => []
  | a :: l' => f a i :: mapi_from f (S i) l'
  end.

Definition mapi {A B : Type} (f : A -> nat -> B) (l : list A) : list B :=
  mapi_from f 0 l.

(** *** Display state *)

Record DisplayState := {
  nodes : JsonValue;
  loading : bool;
  error : option string;
  lastUpdate : option Z
}.

(** The state at mount: the four [useState] initial values. *)
Definition initialState : DisplayState :=
  {| nodes := JArr []; loading := true; error := None; lastUpdate := None |}.

(** *** The main panel *)

(** The handler a button is bound to. *)
Inductive Handler := HandleRefresh.

(** The error panel shows the message above a retry button. *)
Inductive MainContent :=
| ErrorPanel (message : string) (onRetry : Handler)
| LoadingPanel
| EmptyPanel
| NodeTable (rows : list Row).

Fixpoint lookup (name : string) (entries : list (string * JsonValue)) : option JsonValue :=
  match entries with
  | [] => None
  | (k, v) :: rest => if String.eqb k name then Some v else lookup name rest
  end.

(** [nodes.length === 0]; [None] when the read throws (on [null]). *)
Definition length_is_zero (v : JsonValue) : option bool :=
  match v with
  | JNull => None
  | JArr rows => Some (Nat.eqb (List.length rows) 0)
  | JStr s => Some (Nat.eqb (String.length s) 0)
  | JObj entries =>
      match lookup "length" entries with
      | Some (JNum (S754_zero _)) => Some true
      | _ => Some false
      end
  | _ => Some false
  end.

(** [nodes.map(...)]: only an array has a [map] to call. *)
Definition map_rows (v : JsonValue) : option (list Row) :=
  match v with
  | JArr rows => Some (mapi renderRow rows)
  | _ => None
  end.

(** The conditional chain of the main content; [None] when rendering
    throws, which needs a state whose [nodes] is not an array. *)
Definition mainContent (st : DisplayState) : option MainContent :=
  match error st with
  | Some (String c msg) => Some (ErrorPanel (String c msg) HandleRefresh)
  | _ =>
      if loading st then Some LoadingPanel
      else
        match length_is_zero (nodes st) with
        | None => None
        | Some true => Some EmptyPanel
        | Some false => option_map NodeTable (map_rows (nodes st))
        end
  end.

(** The rows on display: those of the table, none on the other panels. *)
Definition tableRows (content : option MainContent) : list Row :=
  match content with
  | Some (NodeTable rows) => rows
  | _ => []
  end.

(** *** Effects: state, notifications and exceptions *)

Record Toast := {
  title : string;
  description : string;
  toastVariant : string
}.

(** The component's state container and the notifications it has sent to
    the host. *)
Record World := {
  display : DisplayState;
  toasts : list Toast
}.

(** A thrown value: an [Error] instance with its message (a [TypeError],
    a [SyntaxError], the [AbortError] of an aborted request, ...) or
    anything else. *)
Inductive Thrown :=
| ErrorObject (message : string)
| OtherValue.

Inductive Completion (A : Type) :=
| Returned (a : A)
| Threw (e : Thrown).
Arguments Returned {A} a.
Arguments Threw {A} e.

Definition M (A : Type) : Type := World -> Completion A * World.

Definition ret {A : Type} (a : A) : M A := fun w => (Returned a, w).

Definition bind {A B : Type} (m : M A) (k : A -> M B) : M B :=
  fun w =>
    match m w with
    | (Returned a, w') => k a w'
    | (Threw e, w') => (Threw e, w')
    end.

Definition throw {A : Type} (e : Thrown) : M A := fun w => (Threw e, w).

Definition try_catch {A : Type} (body : M A) (handler : Thrown -> M A) : M A :=
  fun w =>
    match body w with
    | (Returned a, w') => (Returned a, w')
    | (Threw e, w') => handler e w'
    end.

(** A settled promise: [await] returns its value or throws its reason. *)
Definition await {A : Type} (p : Thrown + A) : M A :=
  match p with
  | inr a => ret a
  | inl e => throw e
  end.

Declare Scope js_scope.
Delimit Scope js_scope with js.
Notation "x <- m ;; k" := (bind m (fun x => k))
  (at level 61, m at next level, right associativity) : js_scope.
Notation "m ;; k" := (bind m (fun _ => k))
  (at level 61, right associativity) : js_scope.
Open Scope js_scope.

Definition exec {A : Type} (m : M A) (w : World) : World := snd (m w).

Definition update (f : DisplayState -> DisplayState) : M unit :=
  fun w => (Returned tt, {| display := f (display w); toasts := toasts w |}).

Definition setNodes (v : JsonValue) : M unit :=
  update (fun st => {| nodes := v; loading := loading st;
                       error := error st; lastUpdate := lastUpdate st |}).

Definition setLoading (b : bool) : M unit :=
  update (fun st => {| nodes := nodes st; loading := b;
                       error := error st; lastUpdate := lastUpdate st |}).

Definition setError (e : option string) : M unit :=
  update (fun st => {| nodes := nodes st; loading := loading st;
                       error := e; lastUpdate := lastUpdate st |}).

Definition setLastUpdate (d : option Z) : M unit :=
  update (fun st => {| nodes := nodes st; loading := loading st;
                       error := error st; lastUpdate := d |}).

Definition toast (t : Toast) : M unit :=
  fun w => (Returned tt, {| display := display w; toasts := toasts w ++ [t] |}).

(** *** The poll *)

Record Response := {
  ok : bool;
  status : Z;
  json : Thrown + JsonValue
}.

(** What one poll meets: how the [fetch] promise settles (it rejects on
    a transport failure and when the 5000 ms timer aborts the request),
    what the clock reads when the answer is stored, and the texts of the
    engine's [TypeError]s, for a property read on [null] and for an
    object that cannot be converted to a string. *)
Record Poll := {
  fetched : Thrown + Response;
  now : Z;
  nullReadMessage : string;
  conversionMessage : string
}.

(** ToBoolean; [None] is [undefined]. *)
Definition truthyValue (v : option JsonValue) : bool :=
  match v with
  | None | Some JNull => false
  | Some (JBool b) => b
  | Some (JNum x) => truthy x
  | Some (JStr s) => negb (String.eqb s "")
  | Some (JArr _) | Some (JObj _) => true
  end.

(** ToString, as a template literal applies it; [None] when the
    conversion throws a [TypeError]. An object is printed by the
    [toString] it inherits, unless an entry of that name hides it: no
    JSON value can be called, [valueOf] gives no primitive either, and
    the conversion throws. *)
Definition stringOf (v : option JsonValue) : option string :=
  match v with
  | None => Some "undefined"
  | Some JNull => Some "null"
  | Some (JBool b) => Some (if b then "true" else "false")
  | Some (JNum x) => Some (toString x)
  | Some (JStr s) => Some s
  | Some (JArr rows) => Some (join "," (map (fun _ => "[object Object]") rows))
  | Some (JObj entries) =>
      match lookup "toString" entries with
      | Some _ => None
      | None => Some "[object Object]"
      end
  end.

(** [`${v}`] inside the [try] block. *)
Definition interpolate (p : Poll) (v : option JsonValue) : M string :=
  match stringOf v with
  | Some text => ret text
  | None => throw (ErrorObject (conversionMessage p))
  end.

(** [data.name] for a name that no array or string defines itself
    ([error], [details]): an entry of an object, [undefined] on the other
    values, a [TypeError] on [null]. *)
Definition property (p : Poll) (data : JsonValue) (name : string) : M (option JsonValue) :=
  match data with
  | JNull => throw (ErrorObject (nullReadMessage p))
  | JObj entries => ret (lookup name entries)
  | _ => ret None
  end.

Definition errorMessageOf (err : Thrown) : string :=
  match err with
  | ErrorObject message => message
  | OtherValue => "未知错误"
  end.

Definition onFailure (err : Thrown) : M unit :=
  let errorMessage := errorMessageOf err in
  setError (Some errorMessage) ;;
  setLoading false ;;
  toast {| title := "连接失败"; description := errorMessage;
           toastVariant := "destructive" |}.

(** [if (!response.ok) throw ...] *)
Definition checkStatus (response : Response) : M unit :=
  if negb (ok response)
  then throw (ErrorObject ("API 响应错误: " ++ toString (of_Z (status response))))
  else ret tt.

(** [if (data.error) throw ...] *)
Definition checkBody (p : Poll) (data : JsonValue) : M unit :=
  dataError <- property p data "error" ;;
  if truthyValue dataError
  then
    dataDetails <- property p data "details" ;;
    text <- interpolate p (if truthyValue dataDetails then dataDetails else dataError) ;;
    throw (ErrorObject ("后端错误: " ++ text))
  else ret tt.

(** The [try] block from the first [await] on. *)
Definition afterRequest (p : Poll) : M unit :=
  response <- await (fetched p) ;;
  checkStatus response ;;
  data <- await (json response) ;;
  checkBody p data ;;
  setNodes data ;;
  setLastUpdate (Some (now p)) ;;
  setLoading false.

Definition fetchNodes (p : Poll) : M unit :=
  try_catch (setError None ;; afterRequest p) onFailure.

Definition handleRefresh (p : Poll) : M unit :=
  setLoading true ;;
  fetchNodes p.

(** The two halves of a call of [fetchNodes], on each side of the
    suspension at [await fetch(...)]: what runs when the call is made, and
    what runs when the request has settled. *)
Definition fetchNodes_issue : M unit := setError None.

Definition fetchNodes_settle (p : Poll) : M unit :=
  try_catch (afterRequest p) onFailure.

Definition handleRefresh_issue : M unit :=
  setLoading true ;;
  fetchNodes_issue.

(** What can happen to the mounted component: the interval timer fires,
    the user clicks a button bound to [handleRefresh] (the refresh button
    of the header or the retry button of the error panel), or a request
    in flight settles. *)
Inductive Event :=
| TimerFired
| RefreshClicked
| RequestSettled (p : Poll).

Definition step (w : World) (ev : Event) : World :=
  match ev with
  | TimerFired => exec fetchNodes_issue w
  | RefreshClicked => exec handleRefresh_issue w
  | RequestSettled p => exec (fetchNodes_settle p) w
  end.

Definition run (w : World) (evs : list Event) : World := fold_left step evs w.

(** Mounting: the initial state, then the effect calls [fetchNodes] once
    (and starts the interval). *)
Definition mounted : World :=
  exec fetchNodes_issue {| display := initialState; toasts := [] |}.

(** *** Header and status card *)



(** The number of UTF-16 code units of a text, which is what [.length]
    counts: one for each character, two for the characters of four
    bytes. *)
Fixpoint utf16Length (s : string) : nat :=
  match s with
  | EmptyString => 0
  | String c s' =>
      let b := nat_of_ascii c in
      (if (b <? 128)%nat then 1
       else if (b <? 192)%nat then 0
       else if (b <? 240)%nat then 1
       else 2) + utf16Length s'
  end.

(** [`${nodes.length}`]; [None] when the read throws (on [null]). *)
Definition lengthText (v : JsonValue) : option string :=
  match v with
  | JNull => None
  | JArr rows => Some (toString (of_Z (Z.of_nat (List.length rows))))
  | JStr s => Some (toString (of_Z (Z.of_nat (utf16Length s))))
  | JObj entries => stringOf (lookup "length" entries)
  | _ => Some "undefined"
  end.

(** The status card: the dot, the status line, and the time of the last
    update when there is one (its wording is the locale's). *)
Record StatusCard := {
  dotClass : string;
  statusText : string;
  updateShown : option Z
}.

(** [None] when rendering throws. *)
Definition statusCard (st : DisplayState) : option StatusCard :=
  match error st with
  | Some (String _ _) =>
      Some {| dotClass := "w-3 h-3 rounded-full bg-destructive";
              statusText := "连接异常";
              updateShown := lastUpdate st |}
  | _ =>
      match lengthText (nodes st) with
      | Some n =>
          Some {| dotClass := "w-3 h-3 rounded-full bg-success animate-pulse";
                  statusText := "在线节点: " ++ n;
                  updateShown := lastUpdate st |}
      | None => None
      end
  end.




(** * Vocabulary of the properties *)

(** The text a string field carries: nothing when it is absent. *)
Definition fieldText (field : option string) : string :=
  match field with
  | Some s => s
  | None => ""
  end.

(** [needle] occurs in [cost] when letter case is ignored: a piece of
    [cost] lowers to it. The needles are lower-case words. *)
Definition occurs_ignoring_case (needle cost : string) : Prop :=
  exists pre mid post, cost = pre ++ mid ++ post /\ toLowerCase mid = needle.

(** [c] occurs in [s]. *)
Fixpoint mem (c : ascii) (s : string) : bool :=
  match s with
  | EmptyString => false
  | String x s' => Ascii.eqb x c || mem c s'
  end.

Definition isDigit (c : ascii) : bool :=
  (48 <=? nat_of_ascii c)%nat && (nat_of_ascii c <=? 57)%nat.

Fixpoint allDigits (s : string) : bool :=
  match s with
  | EmptyString => true
  | String c s' => isDigit c && allDigits s'
  end.

Definition unsigned (s : string) : string :=
  match s with
  | String c r => if Ascii.eqb c "-" then r else s
  | EmptyString => s
  end.

(** Fixed notation with [f] decimals: after an optional "-", one digit or
    more, a point, and [f] digits. *)
Definition isFixed (f : nat) (s : string) : bool :=
  match split "." (unsigned s) with
  | [whole; frac] =>
      negb (String.eqb whole "") && allDigits whole && allDigits frac
      && Nat.eqb (String.length frac) f
  | _ => false
  end.



(** [latency_ms > 0]: an absent latency compares as [NaN] or [0]. *)
Definition isPositive (l : option number) : bool :=
  match l with
  | Some x => gtb x (of_Z 0)
  | None => false
  end.

(** Records with one field set. *)
Definition nodeWithIp (ip : option string) : Node :=
  {| virtual_ip := ip; public_addr := None; cost := None; latency_ms := None;
     rx_bytes := None; tx_bytes := None; conn_type := None |}.

Definition nodeWithLatency (l : option number) : Node :=
  {| virtual_ip := None; public_addr := None; cost := None; latency_ms := l;
     rx_bytes := None; tx_bytes := None; conn_type := None |}.

(** The world once a call has set the error field to null. *)
Definition cleared (w : World) : World :=
  {| display := {| nodes := nodes (display w); loading := loading (display w);
                   error := None; lastUpdate := lastUpdate (display w) |};
     toasts := toasts w |}.

(** The world once a poll has stored its answer. *)
Definition stored (data : JsonValue) (time : Z) (w : World) : World :=
  {| display := {| nodes := data; loading := false;
                   error := error (display w); lastUpdate := Some time |};
     toasts := toasts w |}.

(** The world once a poll has reported a failure. *)
Definition reported (reason : Thrown) (w : World) : World :=
  {| display := {| nodes := nodes (display w); loading := false;
                   error := Some (errorMessageOf reason);
                   lastUpdate := lastUpdate (display w) |};
     toasts := toasts w ++
               [{| title := "连接失败"; description := errorMessageOf reason;
                   toastVariant := "destructive" |}] |}.

(** The reasons for which a poll fails: the request is aborted by the
    timer or fails in transport, the status is not a success, the body
    cannot be read as JSON or is [null], or the body carries an error,
    whose text makes the message when it can be converted to a string. *)
Inductive fails (p : Poll) : Thrown -> Prop :=
| fails_request reason :
    fetched p = inl reason ->
    fails p reason
| fails_status r :
    fetched p = inr r -> ok r = false ->
    fails p (ErrorObject ("API 响应错误: " ++ toString (of_Z (status r))))
| fails_body r reason :
    fetched p = inr r -> ok r = true -> json r = inl reason ->
    fails p reason
| fails_null r :
    fetched p = inr r -> ok r = true -> json r = inr JNull ->
    fails p (ErrorObject (nullReadMessage p))
| fails_backend r entries text :
    fetched p = inr r -> ok r = true -> json r = inr (JObj entries) ->
    truthyValue (lookup "error" entries) = true ->
    stringOf (if truthyValue (lookup "details" entries)
              then lookup "details" entries
              else lookup "error" entries) = Some text ->
    fails p (ErrorObject ("后端错误: " ++ text))
| fails_conversion r entries :
    fetched p = inr r -> ok r = true -> json r = inr (JObj entries) ->
    truthyValue (lookup "error" entries) = true ->
    stringOf (if truthyValue (lookup "details" entries)
              then lookup "details" entries
              else lookup "error" entries) = None ->
    fails p (ErrorObject (conversionMessage p)).

(** The answers a poll stores: any value but [null] whose [error] entry
    is missing or falsy, under a success status. *)
Inductive succeeds (p : Poll) : JsonValue -> Prop :=
| succeeds_with r data :
    fetched p = inr r -> ok r = true -> json r = inr data ->
    data <> JNull ->
    truthyValue (match data with JObj entries => lookup "error" entries | _ => None end)
      = false ->
    succeeds p data.

(** ** Vocabulary of the further properties *)

Definition blank : World := {| display := initialState; toasts := [] |}.

(** The reason for which a poll fails, if it does: what its [try] block
    throws. *)
Definition failureOf (p : Poll) : option Thrown :=
  match fst (afterRequest p blank) with
  | Threw reason => Some reason
  | Returned _ => None
  end.

(** The answer a poll stores, if it does not fail. *)
Definition answerOf (p : Poll) : option JsonValue :=
  match afterRequest p blank with
  | (Returned _, w) => Some (nodes (display w))
  | (Threw _, _) => None
  end.

Definition failureToast (reason : Thrown) : Toast :=
  {| title := "连接失败"; description := errorMessageOf reason;
     toastVariant := "destructive" |}.

(** The notifications a run of events sends. *)
Definition toastsOf (evs : list Event) : list Toast :=
  flat_map (fun ev =>
              match ev with
              | RequestSettled p =>
                  match failureOf p with
                  | Some reason => [failureToast reason]
                  | None => []
                  end
              | _ => []
              end) evs.

(** No poll of the run stores an answer. *)
Definition noAnswer (evs : list Event) : Prop :=
  forall p, In (RequestSettled p) evs -> answerOf p = None.


Definition isArray (v : JsonValue) : bool :=
  match v with
  | JArr _ => true
  | _ => false
  end.

(** Reading a decimal back: the number a string of digits writes, after
    the digits already read. *)
Fixpoint readNat (acc : Z) (s : string) : option Z :=
  match s with
  | EmptyString => Some acc
  | String c s' =>
      if isDigit c then readNat (10 * acc + (Z.of_nat (nat_of_ascii c) - 48)) s'
      else None
  end.

(** The number of units in the last place that a text in fixed notation
    with [f] decimals writes: "12.34" reads as 1234 hundredths. *)
Definition readFixed (f : nat) (s : string) : option Z :=
  match split "." s with
  | [whole; frac] =>
      if Nat.eqb (String.length frac) f then
        match readNat 0 whole, readNat 0 frac with
        | Some a, Some b => Some (a * 10 ^ Z.of_nat f + b)%Z
        | _, _ => None
        end
      else None
  | _ => None
  end.

(** Two polls to try the properties on: one whose request is lost, one
    that answers with rows. *)
Definition lostPoll : Poll :=
  {| fetched := inl (ErrorObject "Failed to fetch"); now := 7; nullReadMessage := "";
     conversionMessage := "" |}.

Definition answerPoll (rows : list Node) (time : Z) : Poll :=
  {| fetched := inr {| ok := true; status := 200; json := inr (JArr rows) |};
     now := time; nullReadMessage := "";
     conversionMessage := "" |}.

(** * Properties *)

(** ** Strings *)

Section StringFacts.

Lemma append_empty_r (s : string) : s ++ "" = s.
Proof. induction s as [|c s IH]; simpl; [reflexivity | now rewrite IH]. Qed.

Lemma append_assoc (a b c : string) : (a ++ b) ++ c = a ++ b ++ c.
Proof. induction a as [|x a IH]; simpl; [reflexivity | now rewrite IH]. Qed.

Lemma toLowerCase_append (a b : string) :
  toLowerCase (a ++ b) = toLowerCase a ++ toLowerCase b.
Proof. induction a as [|x a IH]; simpl; [reflexivity | now rewrite IH]. Qed.

(** A split of the lowered string comes from a split of the string. *)
Lemma toLowerCase_split (s a b : string) :
  toLowerCase s = a ++ b ->
  exists s1 s2, s = s1 ++ s2 /\ toLowerCase s1 = a /\ toLowerCase s2 = b.
Proof.
  revert s; induction a as [|x a IH]; intros s H.
  - exists "", s. auto.
  - destruct s as [|c s]; simpl in H; [discriminate|].
    injection H as Hc Hs.
    destruct (IH s Hs) as (s1 & s2 & -> & H1 & H2).
    exists (String c s1), s2. simpl. subst. auto.
Qed.

Lemma prefix_iff (needle s : string) :
  prefix needle s = true <-> exists post, s = needle ++ post.
Proof.
  revert s; induction needle as [|x needle IH]; intros s.
  - split; [intros _; now exists s | intros _; now destruct s].
  - destruct s as [|c s]; simpl.
    + split; [discriminate | intros [post H]; discriminate].
    + destruct (ascii_dec x c) as [->|Hne].
      * rewrite IH. split; intros [post H]; exists post.
        -- now rewrite H.
        -- now injection H.
      * split; [discriminate | intros [post H]; injection H; congruence].
Qed.

Lemma includes_iff (s needle : string) :
  includes s needle = true <-> exists pre post, s = pre ++ needle ++ post.
Proof.
  induction s as [|c s IH].
  - cbn [includes]. rewrite orb_false_r, prefix_iff. split.
    + intros [post H]. now exists "", post.
    + intros (pre & post & H). destruct pre as [|x pre]; [|discriminate].
      now exists post.
  - cbn [includes]. rewrite orb_true_iff, IH, prefix_iff. split.
    + intros [[post H] | (pre & post & H)].
      * now exists "", post.
      * exists (String c pre), post. simpl. now rewrite H.
    + intros (pre & post & H). destruct pre as [|x pre].
      * left. now exists post.
      * right. injection H as _ H. now exists pre, post.
Qed.

End StringFacts.

(** ** Connection mode *)

Lemma includes_lower_iff (cost needle : string) :
  includes (toLowerCase cost) needle = true <-> occurs_ignoring_case needle cost.
Proof.
  rewrite includes_iff. split.
  - intros (pre & post & H).
    destruct (toLowerCase_split _ _ _ H) as (s1 & s23 & -> & _ & H23).
    destruct (toLowerCase_split _ _ _ H23) as (s2 & s3 & -> & H2 & _).
    now exists s1, s2, s3.
  - intros (pre & mid & post & -> & H).
    exists (toLowerCase pre), (toLowerCase post).
    now rewrite !toLowerCase_append, H.
Qed.

Lemma occurs_in_empty (needle : string) :
  needle <> "" -> ~ occurs_ignoring_case needle "".
Proof.
  intros Hne (pre & mid & post & H & Hl).
  destruct pre; [|discriminate]. destruct mid; [|discriminate].
  simpl in Hl. congruence.
Qed.

Lemma or_else_text (cost : option string) (d : string) :
  or_else cost d = if String.eqb (fieldText cost) "" then d else fieldText cost.
Proof. destruct cost as [[|c s]|]; reflexivity. Qed.

Lemma mode_includes_iff (cost : option string) (needle : string) :
  needle = "local" \/ needle = "p2p" \/ needle = "relay" ->
  includes (toLowerCase (or_else cost "unknown")) needle = true
  <-> occurs_ignoring_case needle (fieldText cost).
Proof.
  intros Hn. rewrite or_else_text.
  destruct (String.eqb_spec (fieldText cost) "") as [He|He].
  - rewrite He. split.
    + destruct Hn as [->|[->| ->]]; vm_compute; discriminate.
    + intros H. exfalso. revert H. apply occurs_in_empty.
      destruct Hn as [->|[->| ->]]; discriminate.
  - apply includes_lower_iff.
Qed.

(** C2. The badge of a cost string is chosen by looking, letter case
    ignored, for "local", then "p2p", then "relay": the first word that
    occurs decides. When none occurs the badge shows the raw text, or the
    placeholder "-" when the text is empty. "P2P-Relay" is a p2p link. *)
Theorem createStatusBadge_priority (cost : option string) :
  let text := fieldText cost in
  (occurs_ignoring_case "local" text -> createStatusBadge cost = localBadge) /\
  (~ occurs_ignoring_case "local" text -> occurs_ignoring_case "p2p" text ->
   createStatusBadge cost = p2pBadge) /\
  (~ occurs_ignoring_case "local" text -> ~ occurs_ignoring_case "p2p" text ->
   occurs_ignoring_case "relay" text -> createStatusBadge cost = relayBadge) /\
  (~ occurs_ignoring_case "local" text -> ~ occurs_ignoring_case "p2p" text ->
   ~ occurs_ignoring_case "relay" text ->
   createStatusBadge cost = rawBadge (if String.eqb text "" then "-" else text)) /\
  createStatusBadge (Some "P2P-Relay") = p2pBadge.
Proof.
  cbv zeta. unfold createStatusBadge.
  pose proof (mode_includes_iff cost "local" (or_introl eq_refl)) as Hl.
  pose proof (mode_includes_iff cost "p2p" (or_intror (or_introl eq_refl))) as Hp.
  pose proof (mode_includes_iff cost "relay" (or_intror (or_intror eq_refl))) as Hr.
  repeat split.
  - intros H. apply Hl in H. now rewrite H.
  - intros Nl H. apply Hp in H. rewrite H.
    destruct (includes _ "local") eqn:E; [exfalso; apply Nl, Hl; reflexivity | reflexivity].
  - intros Nl Np H. apply Hr in H. rewrite H.
    destruct (includes _ "local") eqn:E1; [exfalso; apply Nl, Hl; reflexivity|].
    destruct (includes _ "p2p") eqn:E2; [exfalso; apply Np, Hp; reflexivity|].
    reflexivity.
  - intros Nl Np Nr.
    destruct (includes _ "local") eqn:E1; [exfalso; apply Nl, Hl; reflexivity|].
    destruct (includes _ "p2p") eqn:E2; [exfalso; apply Np, Hp; reflexivity|].
    destruct (includes _ "relay") eqn:E3; [exfalso; apply Nr, Hr; reflexivity|].
    now rewrite or_else_text.
Qed.

Lemma createStatusBadge_priority_witness :
  createStatusBadge (Some "LOCAL-p2p") = localBadge /\
  createStatusBadge (Some "Direct P2P") = p2pBadge /\
  createStatusBadge (Some "via Relay") = relayBadge /\
  createStatusBadge (Some "tcp") = rawBadge "tcp".
Proof.
  assert (no : forall needle text,
             includes (toLowerCase text) needle = false ->
             ~ occurs_ignoring_case needle text).
  { intros needle text E H. apply includes_lower_iff in H. congruence. }
  split; [|split; [|split]].
  - apply (proj1 (createStatusBadge_priority (Some "LOCAL-p2p"))).
    exists "", "LOCAL", "-p2p". split; reflexivity.
  - apply (proj1 (proj2 (createStatusBadge_priority (Some "Direct P2P")))).
    + apply no. reflexivity.
    + exists "Direct ", "P2P", "". split; reflexivity.
  - apply (proj1 (proj2 (proj2 (createStatusBadge_priority (Some "via Relay"))))).
    + apply no. reflexivity.
    + apply no. reflexivity.
    + exists "via ", "Relay", "". split; reflexivity.
  - apply (proj1 (proj2 (proj2 (proj2 (createStatusBadge_priority (Some "tcp")))))).
    + apply no. reflexivity.
    + apply no. reflexivity.
    + apply no. reflexivity.
Defined.

(** ** Virtual IP *)

(** The first piece of a split stops at the first separator: it holds no
    separator, and the string is that piece, followed by nothing or by a
    separator and the rest. *)
Lemma split_head (sep : ascii) (s : string) :
  exists piece pieces,
    split sep s = piece :: pieces /\
    mem sep piece = false /\
    (s = piece \/ exists rest, s = piece ++ String sep rest).
Proof.
  induction s as [|c s (piece & pieces & E & Hm & Hs)].
  - exists "", []. simpl. auto.
  - simpl. destruct (Ascii.eqb_spec c sep) as [->|Hne].
    + exists "", (split sep s). simpl. repeat split. right. now exists s.
    + rewrite E. exists (String c piece), pieces. simpl.
      apply Ascii.eqb_neq in Hne. rewrite Hne, Hm. repeat split.
      destruct Hs as [->|[rest ->]]; [now left | right; now exists rest].
Qed.

Lemma split_no_separator (sep : ascii) (s : string) :
  mem sep s = false -> split sep s = [s].
Proof.
  induction s as [|c s IH]; simpl; [reflexivity|].
  destruct (Ascii.eqb c sep); simpl; [discriminate|].
  intros H. now rewrite (IH H).
Qed.

(** C8. The address shown for a node is its [virtual_ip] up to the first
    '/': the text is the shown address followed by nothing or by a '/'
    and the rest, the shown address holds no '/', and a text without '/'
    is shown as it is. "10.0.0.5/24" is shown as "10.0.0.5". *)
Theorem cleanIp_strips_prefix_length (node : Node) :
  let ip := fieldText (virtual_ip node) in
  (ip = cleanIp node \/ exists rest, ip = cleanIp node ++ String "/" rest) /\
  mem "/" (cleanIp node) = false /\
  (mem "/" ip = false -> cleanIp node = ip) /\
  cleanIp (nodeWithIp (Some "10.0.0.5/24")) = "10.0.0.5".
Proof.
  cbv zeta. unfold cleanIp.
  assert (E : or_else (virtual_ip node) "" = fieldText (virtual_ip node))
    by (now destruct (virtual_ip node) as [[|c s]|]).
  rewrite E. set (ip := fieldText (virtual_ip node)).
  destruct (split_head "/" ip) as (piece & pieces & Hsplit & Hm & Hs).
  repeat split.
  - rewrite Hsplit. exact Hs.
  - now rewrite Hsplit.
  - intros H. now rewrite (split_no_separator _ _ H).
Qed.

Lemma cleanIp_strips_prefix_length_witness :
  cleanIp (nodeWithIp (Some "10.0.0.5")) = "10.0.0.5".
Proof.
  apply (proj1 (proj2 (proj2
    (cleanIp_strips_prefix_length (nodeWithIp (Some "10.0.0.5")))))).
  reflexivity.
Defined.

(** ** Numbers *)

Section NumberFacts.

Lemma string_of_uint_allDigits (d : Decimal.uint) :
  allDigits (NilEmpty.string_of_uint d) = true.
Proof. induction d; simpl; auto. Qed.

Lemma digits_allDigits (n : Z) : allDigits (digits n) = true.
Proof.
  unfold digits, NilZero.string_of_uint.
  destruct (N.to_uint (Z.to_N n)); try reflexivity; apply string_of_uint_allDigits.
Qed.

Lemma digits_head (n : Z) :
  exists c rest, digits n = String c rest /\ isDigit c = true.
Proof.
  unfold digits, NilZero.string_of_uint.
  destruct (N.to_uint (Z.to_N n)); simpl; eauto.
Qed.

Lemma digit_char (k : Z) :
  (0 <= k < 10)%Z -> isDigit (ascii_of_nat (48 + Z.to_nat k)) = true.
Proof.
  intros H.
  assert (E : (k = 0 \/ k = 1 \/ k = 2 \/ k = 3 \/ k = 4 \/ k = 5 \/ k = 6 \/
               k = 7 \/ k = 8 \/ k = 9)%Z) by lia.
  repeat (destruct E as [-> | E]; [reflexivity|]). now subst.
Qed.

Lemma allDigits_append (a b : string) :
  allDigits (a ++ b) = allDigits a && allDigits b.
Proof. induction a as [|c a IH]; simpl; [reflexivity | now rewrite IH, andb_assoc]. Qed.

Lemma length_append (a b : string) :
  String.length (a ++ b) = (String.length a + String.length b)%nat.
Proof. induction a as [|c a IH]; simpl; [reflexivity | now rewrite IH]. Qed.

Lemma frac_digits_shape (f : nat) (r : Z) :
  allDigits (frac_digits f r) = true /\ String.length (frac_digits f r) = f.
Proof.
  revert r; induction f as [|f IH]; intros r; cbn [frac_digits]; [auto|].
  destruct (IH (r / 10)%Z) as [Ha Hl].
  rewrite allDigits_append, length_append, Ha, Hl.
  cbn [allDigits String.length andb].
  rewrite digit_char by (apply Z.mod_pos_bound; lia). split; [reflexivity | lia].
Qed.

Lemma allDigits_no_point (s : string) : allDigits s = true -> mem "." s = false.
Proof.
  induction s as [|c s IH]; simpl; [reflexivity|].
  intros H. apply andb_true_iff in H as [Hc Hs]. rewrite (IH Hs), orb_false_r.
  destruct (Ascii.eqb_spec c "."); [subst; discriminate | reflexivity].
Qed.

Lemma split_at_point (a b : string) :
  mem "." a = false -> mem "." b = false ->
  split "." (a ++ String "." b) = [a; b].
Proof.
  intros Ha Hb. induction a as [|c a IH]; simpl.
  - now rewrite (split_no_separator _ _ Hb).
  - simpl in Ha. apply orb_false_iff in Ha as [Hc Ha].
    rewrite Hc, (IH Ha). reflexivity.
Qed.

Lemma digit_not_minus (c : ascii) : isDigit c = true -> Ascii.eqb c "-" = false.
Proof.
  intros H. destruct (Ascii.eqb_spec c "-") as [->|]; [discriminate | reflexivity].
Qed.

Lemma fixed_point_isFixed (f : nat) (n : Z) (negative : bool) :
  f <> 0%nat ->
  isFixed f ((if negative then "-" else "") ++ fixed_point f n) = true.
Proof.
  intros Hf. unfold fixed_point. destruct f as [|f]; [congruence|].
  generalize (n / 10 ^ Z.of_nat (S f))%Z; intros k.
  destruct (frac_digits_shape (S f) n) as [Ha Hl].
  pose proof (digits_allDigits k) as Hw.
  destruct (digits_head k) as (c & rest & Hd & Hc).
  generalize dependent (frac_digits (S f) n); intros frac Ha Hl.
  generalize dependent (digits k); intros whole Hw Hd.
  assert (U : unsigned ((if negative then "-" else "") ++ whole ++ String "." frac)
              = whole ++ String "." frac).
  { destruct negative; [reflexivity|].
    rewrite Hd. cbn [append unsigned]. now rewrite (digit_not_minus _ Hc). }
  unfold isFixed. rewrite U, split_at_point by now apply allDigits_no_point.
  rewrite Hw, Ha, Hl, Nat.eqb_refl, Hd. reflexivity.
Qed.

(** *** toFixed *)

Lemma toFixed_in_range (f : nat) (s : bool) (m : positive) (e : Z) :
  (magnitude (S754_finite s m e) < 10 ^ 21)%Q ->
  toFixed f (S754_finite s m e)
  = (if s then "-" else "")
    ++ fixed_point f (round_half_up (magnitude (S754_finite s m e) * pow10 (Z.of_nat f))).
Proof.
  intros H. unfold toFixed.
  destruct (Qle_bool (pow10 21) (magnitude (S754_finite s m e))) eqn:E; [|reflexivity].
  apply Qle_bool_iff in E. exfalso. revert E. now apply Qlt_not_le.
Qed.


Lemma append_char_differs (a b : string) (x c : ascii) :
  x <> c -> a ++ String x b <> String c "".
Proof.
  intros Hx H. destruct a as [|y a]; cbn [append] in H.
  - injection H as H _. contradiction.
  - injection H as _ H. destruct a; discriminate.
Qed.

Lemma render_shortest_not_dash (d p : Z) : render_shortest d p <> "-".
Proof.
  unfold render_shortest, exponent_part.
  destruct (digits_head d) as (c & rest & Hd & Hc).
  generalize dependent (digits d); intros ds ->.
  apply digit_not_minus in Hc.
  repeat match goal with |- context [if ?b then _ else _] => destruct b end;
    cbn [append].
  all: try (intros H; injection H as H _; subst c; discriminate).
  all: try (apply append_char_differs; discriminate).
  all: try (intros H; injection H as H _; discriminate).
Qed.

Lemma toString_positive_not_dash (m : positive) (e : Z) :
  toString (S754_finite false m e) <> "-".
Proof.
  unfold toString.
  destruct (shortest 700 (rounding_interval m e) (magnitude (S754_finite false m e)) 309)
    as [d p].
  cbn [append]. apply render_shortest_not_dash.
Qed.

Lemma fixed_point_not_dash (f : nat) (n : Z) : fixed_point f n <> "-".
Proof.
  unfold fixed_point. destruct f as [|f].
  - destruct (digits_head n) as (c & rest & -> & Hc).
    apply digit_not_minus in Hc. intros H. injection H as H _. subst c. discriminate.
  - apply append_char_differs. discriminate.
Qed.

Lemma toFixed_positive_not_dash (f : nat) (x : number) :
  gtb x (of_Z 0) = true -> toFixed f x <> "-".
Proof.
  destruct x as [s | s | | s m e]; try discriminate.
  - destruct s; [discriminate|]. intros _. discriminate.
  - destruct s; [discriminate|]. intros _. unfold toFixed.
    destruct (Qle_bool _ _).
    + apply toString_positive_not_dash.
    + cbn [append]. apply fixed_point_not_dash.
Qed.

(** *** Division by 1,048,576 *)

Local Open Scope Z_scope.

Lemma MB_is : of_Z (1024 * 1024) = S754_finite false 4503599627370496 (-32).
Proof. vm_compute. reflexivity. Qed.

Lemma div_eucl_exact (a b q : Z) :
  0 < b -> a = q * b -> Z.div_eucl a b = (q, 0).
Proof.
  intros Hb Ha.
  pose proof (Z_div_mod a b (Z.lt_gt _ _ Hb)) as H.
  destruct (Z.div_eucl a b) as [q' r].
  destruct H as [H1 H2].
  assert (E : (q - q') * b = r) by lia.
  assert (q' = q) by nia. subst q'.
  f_equal. lia.
Qed.

Lemma div_by_MB_exact (s : bool) (m : positive) (e : Z) :
  digits2_pos m = 53%positive -> -1054 <= e <= 971 ->
  div (S754_finite s m e) (of_Z (1024 * 1024)) = S754_finite s m (e - 20).
Proof.
  intros Hd He. rewrite MB_is. unfold div, SFdiv, SFdiv_core_binary.
  cbn [Zdigits2]. rewrite Hd.
  change (Z.pos (digits2_pos 4503599627370496)) with 53.
  unfold fexp, emin, prec, emax.
  rewrite xorb_false_r.
  destruct (Z.eq_dec e (-1054)) as [->|Hne].
  - change (Z.min (Z.max (53 + -1054 - (53 + -32) - 53) (3 - 1024 - 53)) (-1054 - -32))
      with (-1074).
    change (-1054 - -32 - -1074) with 52.
    change (IntDef.Z.div_eucl (IntDef.Z.shiftl (Z.pos m) 52) 4503599627370496)
      with (Z.div_eucl (Z.shiftl (Z.pos m) 52) 4503599627370496).
    rewrite (div_eucl_exact _ _ (Z.pos m))
      by (rewrite ?Z.shiftl_mul_pow2 by lia; change (2 ^ 52) with 4503599627370496; lia).
    change (new_location 4503599627370496 0) with loc_Exact.
    unfold binary_round_aux, shr_fexp, fexp, emin.
    cbn [Zdigits2]. rewrite Hd.
    change (Z.max (53 + -1074 - 53) (3 - 1024 - 53) - -1074) with 0.
    cbn [shr shr_record_of_loc shr_m loc_of_shr_record round_nearest_even].
    cbn [Zdigits2]. rewrite Hd.
    change (IntDef.Z.max (53 + -1074 - 53) (3 - 1024 - 53) - -1074) with 0.
    cbn [shr shr_m]. reflexivity.
  - replace (Z.min (Z.max (53 + e - (53 + -32) - 53) (3 - 1024 - 53)) (e - -32))
      with (e - 21) by lia.
    replace (e - -32 - (e - 21)) with 53 by lia.
    change (IntDef.Z.div_eucl (IntDef.Z.shiftl (Z.pos m) 53) 4503599627370496)
      with (Z.div_eucl (Z.shiftl (Z.pos m) 53) 4503599627370496).
    rewrite (div_eucl_exact _ _ (Z.pos m~0))
      by (rewrite ?Z.shiftl_mul_pow2 by lia; change (2 ^ 53) with 9007199254740992; lia).
    change (new_location 4503599627370496 0) with loc_Exact.
    unfold binary_round_aux, shr_fexp, fexp, emin.
    cbn [Zdigits2 digits2_pos]. rewrite Hd.
    change (Z.pos (Pos.succ 53)) with 54.
    replace (Z.max (54 + (e - 21) - 53) (3 - 1024 - 53) - (e - 21)) with 1 by lia.
    cbn [shr shr_record_of_loc iter_pos shr_1 shr_m loc_of_shr_record
         round_nearest_even orb].
    cbn [Zdigits2]. rewrite Hd.
    change (IntDef.Z.max (53 + (e - 21 + 1) - 53) (3 - 1024 - 53))
      with (Z.max (53 + (e - 21 + 1) - 53) (3 - 1024 - 53)).
    replace (Z.max (53 + (e - 21 + 1) - 53) (3 - 1024 - 53) - (e - 21 + 1)) with 0 by lia.
    cbn [shr shr_m].
    replace (e - 21 + 1) with (e - 20) by lia.
    destruct (Z.leb_spec (e - 20) (1024 - 53)); [reflexivity | lia].
Qed.

Lemma magnitude_div_MB (s : bool) (m : positive) (e : Z) :
  (magnitude (S754_finite s m (e - 20)) == magnitude (S754_finite s m e) / 1048576)%Q.
Proof.
  unfold magnitude. rewrite Qpower_minus by discriminate.
  change ((2 ^ 20)%Q) with (1048576%Q). field.
Qed.

Lemma round_half_up_comp (x y : Q) : (x == y)%Q -> round_half_up x = round_half_up y.
Proof. intros H. unfold round_half_up. apply Qfloor_comp. now rewrite H. Qed.

(** *** Byte counts *)




(** *** Latency *)

(** A latency of [10^21] ms is positive and is not printed with one
    decimal: [toFixed] hands such magnitudes over to [toString]. *)
Lemma latency_of_1e21_is_exponential :
  let node := nodeWithLatency (Some (of_Z (10 ^ 21))) in
  isPositive (latency_ms node) = true /\
  latency node = "1e+21" /\
  isFixed 1 (latency node) = false.
Proof. vm_compute. repeat split. Qed.

(** C7. The latency cell is the dash exactly when the latency is not
    strictly positive (absent, [NaN], zero or negative); a strictly
    positive latency is printed by [toFixed(1)], which for a finite
    value below [10^21] is fixed notation with one decimal, the nearest
    tenth (the upper one on a tie). 0 and -5 give the dash, 12.345 gives
    "12.3". *)
Theorem latency_format (node : Node) :
  (latency node = "-" <-> isPositive (latency_ms node) = false) /\
  (forall l, latency_ms node = Some l -> gtb l (of_Z 0) = true ->
     latency node = toFixed 1 l) /\
  (forall m e,
     latency_ms node = Some (S754_finite false m e) ->
     (magnitude (S754_finite false m e) < 10 ^ 21)%Q ->
     latency node
     = fixed_point 1 (round_half_up (magnitude (S754_finite false m e) * 10)) /\
     isFixed 1 (latency node) = true) /\
  latency (nodeWithLatency (Some (of_Z 0))) = "-" /\
  latency (nodeWithLatency (Some (of_Z (-5)))) = "-" /\
  latency (nodeWithLatency (Some (of_decimal 12345 3))) = "12.3".
Proof.
  split; [|split; [|split; [|split; [|split]]]].
  - unfold latency, isPositive. destruct (latency_ms node) as [l|]; [|tauto].
    destruct (gtb l (of_Z 0)) eqn:E; [|tauto].
    split; [|discriminate]. intros H. exfalso. revert H.
    now apply toFixed_positive_not_dash.
  - intros l E H. unfold latency. now rewrite E, H.
  - intros m e E H.
    assert (L : latency node
                = fixed_point 1 (round_half_up (magnitude (S754_finite false m e) * 10))).
    { unfold latency. rewrite E. change (gtb (S754_finite false m e) (of_Z 0)) with true.
      cbv iota. now rewrite toFixed_in_range. }
    split; [exact L|]. rewrite L.
    apply (fixed_point_isFixed 1 _ false). discriminate.
  - reflexivity.
  - reflexivity.
  - vm_compute. reflexivity.
Qed.

Lemma latency_format_witness :
  let node := nodeWithLatency (Some (of_decimal 425 1)) in
  latency node = "42.5" /\ isFixed 1 (latency node) = true.
Proof.
  intros node.
  destruct (latency_format node) as (_ & Hfix & Hshape & _).
  split.
  - rewrite (Hfix (of_decimal 425 1) eq_refl eq_refl). vm_compute. reflexivity.
  - apply (Hshape 5981343255101440%positive (-47)%Z).
    + vm_compute. reflexivity.
    + vm_compute. reflexivity.
Defined.

End NumberFacts.

(** ** Rows *)

Lemma mapi_from_length {A B : Type} (f : A -> nat -> B) (l : list A) (i : nat) :
  List.length (mapi_from f i l) = List.length l.
Proof. revert i; induction l as [|a l IH]; intros i; simpl; [reflexivity | now rewrite IH]. Qed.

Lemma mapi_length {A B : Type} (f : A -> nat -> B) (l : list A) :
  List.length (mapi f l) = List.length l.
Proof. apply mapi_from_length. Qed.

Lemma mapi_from_nth_error {A B : Type} (f : A -> nat -> B) (l : list A) (i k : nat) (a : A) :
  nth_error l k = Some a -> nth_error (mapi_from f i l) k = Some (f a (i + k)).
Proof.
  revert i k; induction l as [|x l IH]; intros i k H.
  - destruct k; discriminate.
  - destruct k as [|k]; simpl in *.
    + injection H as ->. now rewrite Nat.add_0_r.
    + rewrite (IH (S i) k H). f_equal. f_equal. lia.
Qed.

Lemma mapi_nth_error {A B : Type} (f : A -> nat -> B) (l : list A) (k : nat) (a : A) :
  nth_error l k = Some a -> nth_error (mapi f l) k = Some (f a k).
Proof. intros H. apply (mapi_from_nth_error f l 0 k a H). Qed.

(** ** The poll *)

Ltac unfold_js :=
  unfold fetchNodes, fetchNodes_settle, fetchNodes_issue, handleRefresh,
    handleRefresh_issue, afterRequest, checkStatus, checkBody, interpolate,
    onFailure, property, setNodes,
    setLastUpdate, setLoading, setError, toast, update, await, try_catch,
    bind, throw, ret, exec in *.

Lemma poll_cases (p : Poll) :
  (exists reason, fails p reason) \/ (exists data, succeeds p data).
Proof.
  destruct (fetched p) as [reason|r] eqn:Ef.
  { left. exists reason. now constructor. }
  destruct (ok r) eqn:Eok.
  2:{ left. eexists. now apply fails_status with (r := r). }
  destruct (json r) as [reason|data] eqn:Ej.
  { left. exists reason. now apply fails_body with (r := r). }
  destruct data as [| b | x | s | rows | entries].
  - left. eexists. now apply fails_null with (r := r).
  - right. exists (JBool b). now apply succeeds_with with (r := r).
  - right. exists (JNum x). now apply succeeds_with with (r := r).
  - right. exists (JStr s). now apply succeeds_with with (r := r).
  - right. exists (JArr rows). now apply succeeds_with with (r := r).
  - destruct (truthyValue (lookup "error" entries)) eqn:Et.
    + left.
      destruct (stringOf (if truthyValue (lookup "details" entries)
                          then lookup "details" entries
                          else lookup "error" entries)) as [text|] eqn:Es.
      * eexists. now apply fails_backend with (r := r) (entries := entries) (text := text).
      * eexists. now apply fails_conversion with (r := r) (entries := entries).
    + right. exists (JObj entries). now apply succeeds_with with (r := r).
Qed.

(** A failing [try] block throws its reason and has touched nothing. *)
Lemma afterRequest_fails (p : Poll) (reason : Thrown) (w : World) :
  fails p reason -> afterRequest p w = (Threw reason, w).
Proof.
  intros H. unfold_js.
  destruct H as [reason E | r E Eok | r reason E Eok Ej | r E Eok Ej
                | r entries text E Eok Ej Et Es | r entries E Eok Ej Et Es];
    rewrite E; simpl.
  - reflexivity.
  - now rewrite Eok.
  - now rewrite Eok, Ej.
  - now rewrite Eok, Ej.
  - rewrite Eok, Ej. simpl. now rewrite Et, Es.
  - rewrite Eok, Ej. simpl. now rewrite Et, Es.
Qed.

Lemma afterRequest_succeeds (p : Poll) (data : JsonValue) (w : World) :
  succeeds p data -> afterRequest p w = (Returned tt, stored data (now p) w).
Proof.
  intros [r d E Eok Ej Hn Et]. unfold_js. rewrite E. simpl.
  rewrite Eok, Ej. simpl.
  destruct d; try congruence; simpl in *; try rewrite Et; reflexivity.
Qed.

Lemma fetchNodes_fails (p : Poll) (reason : Thrown) (w : World) :
  fails p reason -> exec (fetchNodes p) w = reported reason (cleared w).
Proof.
  intros H. unfold fetchNodes, try_catch, bind, exec.
  unfold setError at 1. unfold update at 1.
  fold (cleared w). now rewrite (afterRequest_fails _ _ _ H).
Qed.

Lemma fetchNodes_succeeds (p : Poll) (data : JsonValue) (w : World) :
  succeeds p data -> exec (fetchNodes p) w = stored data (now p) (cleared w).
Proof.
  intros H. unfold fetchNodes, try_catch, bind, exec.
  unfold setError at 1. unfold update at 1.
  fold (cleared w). now rewrite (afterRequest_succeeds _ _ _ H).
Qed.

(** A call is its two halves, one after the other. *)
Lemma fetchNodes_halves (p : Poll) (w : World) :
  exec (fetchNodes p) w = exec (fetchNodes_settle p) (exec fetchNodes_issue w).
Proof.
  unfold fetchNodes, fetchNodes_settle, fetchNodes_issue, try_catch, bind, exec,
    setError, update. reflexivity.
Qed.

Lemma handleRefresh_halves (p : Poll) (w : World) :
  exec (handleRefresh p) w = exec (fetchNodes_settle p) (exec handleRefresh_issue w).
Proof.
  unfold handleRefresh, handleRefresh_issue, fetchNodes, fetchNodes_settle,
    fetchNodes_issue, try_catch, bind, exec, setError, setLoading, update.
  reflexivity.
Qed.

Lemma fetchNodes_settle_fails (p : Poll) (reason : Thrown) (w : World) :
  fails p reason -> exec (fetchNodes_settle p) w = reported reason w.
Proof.
  intros H. unfold fetchNodes_settle, try_catch, exec.
  now rewrite (afterRequest_fails _ _ _ H).
Qed.

Lemma fetchNodes_settle_succeeds (p : Poll) (data : JsonValue) (w : World) :
  succeeds p data -> exec (fetchNodes_settle p) w = stored data (now p) w.
Proof.
  intros H. unfold fetchNodes_settle, try_catch, exec.
  now rewrite (afterRequest_succeeds _ _ _ H).
Qed.

Lemma fetchNodes_issue_cleared (w : World) : exec fetchNodes_issue w = cleared w.
Proof. reflexivity. Qed.

(** C3. A failing poll, whatever the reason (the request aborted by the
    timer or lost in transport, a status that is not a success, a body
    that signals an error), leaves [fetchNodes] with the reason's message
    in the error field, the loading flag cleared, the node list and the
    time of the last update as they were, and exactly one more
    notification, which carries that message. *)
Theorem fetchNodes_failure_effects (p : Poll) (reason : Thrown) (w : World) :
  fails p reason ->
  let w' := exec (fetchNodes p) w in
  error (display w') = Some (errorMessageOf reason) /\
  loading (display w') = false /\
  nodes (display w') = nodes (display w) /\
  lastUpdate (display w') = lastUpdate (display w) /\
  toasts w' = (toasts w ++ [{| title := "连接失败";
                               description := errorMessageOf reason;
                               toastVariant := "destructive" |}])%list.
Proof.
  intros H. cbv zeta. rewrite (fetchNodes_fails _ _ _ H).
  repeat split.
Qed.

Lemma fetchNodes_failure_effects_witness :
  let p := {| fetched := inl (ErrorObject "signal is aborted without reason");
              now := 5000; nullReadMessage := "";
              conversionMessage := "" |} in
  let w := {| display := {| nodes := JArr [nodeWithIp (Some "10.0.0.5/24")];
                            loading := true; error := None;
                            lastUpdate := Some 0%Z |};
              toasts := [] |} in
  error (display (exec (fetchNodes p) w)) = Some "signal is aborted without reason" /\
  loading (display (exec (fetchNodes p) w)) = false /\
  nodes (display (exec (fetchNodes p) w)) = JArr [nodeWithIp (Some "10.0.0.5/24")] /\
  lastUpdate (display (exec (fetchNodes p) w)) = Some 0%Z /\
  toasts (exec (fetchNodes p) w) =
    [{| title := "连接失败"; description := "signal is aborted without reason";
        toastVariant := "destructive" |}].
Proof.
  intros p w.
  apply (fetchNodes_failure_effects p
           (ErrorObject "signal is aborted without reason") w).
  apply fails_request. reflexivity.
Defined.

(** Where the error message of a state comes from, after a run of
    events: it is the one the run started with, or none, or the message
    of a poll that failed during the run. *)
Lemma run_error_origin (evs : list Event) (w : World) :
  error (display (run w evs)) = error (display w) \/
  error (display (run w evs)) = None \/
  exists p reason,
    In (RequestSettled p) evs /\ fails p reason /\
    error (display (run w evs)) = Some (errorMessageOf reason).
Proof.
  revert w; induction evs as [|ev evs IH]; intros w; [now left|].
  cbn [run fold_left]. fold (run (step w ev) evs).
  destruct (IH (step w ev)) as [H | [H | (p & reason & Hin & Hf & H)]].
  - rewrite H. destruct ev as [| | p]; cbn [step].
    + right; left; reflexivity.
    + right; left; reflexivity.
    + destruct (poll_cases p) as [[reason Hf] | [data Hs]].
      * right; right. exists p, reason. repeat split; [now left | exact Hf |].
        now rewrite (fetchNodes_settle_fails _ _ _ Hf).
      * left. now rewrite (fetchNodes_settle_succeeds _ _ _ Hs).
  - right; left; exact H.
  - right; right. exists p, reason. repeat split; [now right | exact Hf | exact H].
Qed.

(** C9. A call of [fetchNodes] starts by setting the error field to null
    and touches nothing else before the request is out; whatever the
    poll then meets, failure included, the call is that first half
    followed by the settling of the request. While the request is in
    flight the message of an earlier failure is gone: after any run of
    events the error field is null or holds the message of a poll that
    failed during that run. *)
Theorem fetchNodes_clears_error_first (p : Poll) (w : World) :
  error (display (exec fetchNodes_issue w)) = None /\
  nodes (display (exec fetchNodes_issue w)) = nodes (display w) /\
  loading (display (exec fetchNodes_issue w)) = loading (display w) /\
  lastUpdate (display (exec fetchNodes_issue w)) = lastUpdate (display w) /\
  toasts (exec fetchNodes_issue w) = toasts w /\
  exec (fetchNodes p) w = exec (fetchNodes_settle p) (exec fetchNodes_issue w) /\
  (forall evs,
     let st := display (run (exec fetchNodes_issue w) evs) in
     error st = None \/
     exists q reason,
       In (RequestSettled q) evs /\ fails q reason /\
       error st = Some (errorMessageOf reason)).
Proof.
  do 5 (split; [reflexivity|]). split; [apply fetchNodes_halves|].
  intros evs. cbv zeta.
  destruct (run_error_origin evs (exec fetchNodes_issue w)) as [H | [H | H]].
  - left. rewrite H. reflexivity.
  - now left.
  - now right.
Qed.

(** ** Answers *)

(** A poll can answer after another one, started later, has failed: the
    rows are stored, and yet the error field holds the failure's
    message and the panel shows no row of the array received. *)
Lemma answer_after_overlapping_failure_shows_no_row :
  let received := [nodeWithIp (Some "10.0.0.2/24")] in
  let st := display (run mounted [RequestSettled (answerPoll [] 1);
                                  TimerFired; RefreshClicked;
                                  RequestSettled lostPoll;
                                  RequestSettled (answerPoll received 9)]) in
  nodes st = JArr received /\
  error st = Some "Failed to fetch" /\
  List.length (tableRows (mainContent st)) = 0%nat /\
  List.length received = 1%nat.
Proof. repeat split. Qed.

(** C4. When a poll whose answer is a JSON array settles, whatever
    happened since it was started, the node list is replaced by that
    array, the time of the last update is the time of the poll, the
    loading flag is cleared and no notification is sent. The error
    field is left as it is at that moment: null, unless a poll has
    failed since this one was started, whose message it then holds; it
    is null when nothing happened in between. With no error message in
    the state the panel shows one row per element, the i-th row made
    from the i-th element. *)
Theorem fetchNodes_success_effects
    (p : Poll) (r : Response) (received : list Node)
    (start : Event) (between : list Event) (w : World) :
  fetched p = inr r -> ok r = true -> json r = inr (JArr received) ->
  start = TimerFired \/ start = RefreshClicked ->
  let before := run (step w start) between in
  let w' := step before (RequestSettled p) in
  nodes (display w') = JArr received /\
  lastUpdate (display w') = Some (now p) /\
  loading (display w') = false /\
  toasts w' = toasts before /\
  error (display w') = error (display before) /\
  (error (display w') = None \/
   exists q reason,
     In (RequestSettled q) between /\ fails q reason /\
     error (display w') = Some (errorMessageOf reason)) /\
  (between = [] -> error (display w') = None) /\
  (fieldText (error (display w')) = "" ->
   mainContent (display w') =
     Some (match received with
           | [] => EmptyPanel
           | _ => NodeTable (mapi renderRow received)
           end) /\
   List.length (tableRows (mainContent (display w'))) = List.length received /\
   (forall i node, nth_error received i = Some node ->
      nth_error (tableRows (mainContent (display w'))) i = Some (renderRow node i))).
Proof.
  intros E Eok Ej Hstart. cbv zeta.
  assert (S : succeeds p (JArr received))
    by (apply succeeds_with with (r := r); auto; discriminate).
  cbn [step]. rewrite (fetchNodes_settle_succeeds _ _ _ S).
  set (before := run (step w start) between).
  assert (Hissued : error (display (step w start)) = None)
    by (destruct Hstart as [-> | ->]; reflexivity).
  do 5 (split; [reflexivity|]).
  cbn [stored display error].
  split; [|split].
  - destruct (run_error_origin between (step w start)) as [H | [H | H]].
    + left. fold before in H. now rewrite H.
    + now left.
    + now right.
  - intros ->. exact Hissued.
  - intros Hfalsy.
    assert (C : mainContent (display (stored (JArr received) (now p) before)) =
                Some (match received with
                      | [] => EmptyPanel
                      | _ => NodeTable (mapi renderRow received)
                      end)).
    { unfold mainContent. cbn [stored display error loading nodes].
      destruct (error (display before)) as [[|c msg]|];
        [| discriminate Hfalsy |]; now destruct received. }
    assert (T : tableRows (mainContent (display (stored (JArr received) (now p) before)))
                = mapi renderRow received) by (rewrite C; now destruct received).
    cbn [stored display] in C, T.
    split; [exact C|]. split.
    + rewrite T. apply mapi_length.
    + intros i node H. rewrite T. now apply mapi_nth_error.
Qed.

Lemma fetchNodes_success_effects_witness :
  let received := [nodeWithIp (Some "10.0.0.2/24"); nodeWithIp (Some "10.0.0.1/24")] in
  let w := {| display := {| nodes := JArr []; loading := false;
                            error := Some "API 响应错误: 502"; lastUpdate := None |};
              toasts := [] |} in
  let w' := step (run (step w TimerFired) [RefreshClicked])
                 (RequestSettled (answerPoll received 1700000000000)) in
  nodes (display w') = JArr received /\
  lastUpdate (display w') = Some 1700000000000%Z /\
  loading (display w') = false /\
  error (display w') = None /\
  mainContent (display w') = Some (NodeTable (mapi renderRow received)) /\
  List.length (tableRows (mainContent (display w'))) = 2%nat.
Proof.
  intros received w w'.
  destruct (fetchNodes_success_effects (answerPoll received 1700000000000)
              {| ok := true; status := 200; json := inr (JArr received) |}
              received TimerFired [RefreshClicked] w
              eq_refl eq_refl eq_refl (or_introl eq_refl))
    as (Hn & Hu & Hl & _ & He & _ & _ & Hshow).
  destruct (Hshow eq_refl) as (Hc & Hlen & _).
  repeat split; try assumption.
Defined.

(** ** The loading flag *)

Lemma settle_clears_loading (p : Poll) (w : World) :
  loading (display (exec (fetchNodes_settle p) w)) = false.
Proof.
  destruct (poll_cases p) as [[reason H] | [data H]].
  - now rewrite (fetchNodes_settle_fails _ _ _ H).
  - now rewrite (fetchNodes_settle_succeeds _ _ _ H).
Qed.

Lemma step_keeps_loading_false (w : World) (ev : Event) :
  ev <> RefreshClicked ->
  loading (display w) = false -> loading (display (step w ev)) = false.
Proof.
  intros Hev Hl. destruct ev as [| | p]; simpl.
  - exact Hl.
  - congruence.
  - apply settle_clears_loading.
Qed.

Lemma run_keeps_loading_false (evs : list Event) (w : World) :
  ~ In RefreshClicked evs ->
  loading (display w) = false -> loading (display (run w evs)) = false.
Proof.
  revert w; induction evs as [|ev evs IH]; intros w Hin Hl; simpl.
  - exact Hl.
  - apply IH.
    + intros H. apply Hin. now right.
    + apply step_keeps_loading_false; [|exact Hl].
      intros ->. apply Hin. now left.
Qed.

(** C10. Issuing a poll leaves the loading flag as it is and settling a
    poll clears it; [handleRefresh] sets it. Hence an event that raises
    the flag is a click on refresh, and once the first poll has settled
    the flag stays down through any run of timer polls and settlements. *)
Theorem loading_raised_only_by_handleRefresh :
  (forall w, loading (display (exec fetchNodes_issue w)) = loading (display w)) /\
  (forall p w, loading (display (exec (fetchNodes_settle p) w)) = false) /\
  (forall p w, loading (display (exec (fetchNodes p) w)) = false) /\
  (forall w, loading (display (exec handleRefresh_issue w)) = true) /\
  (forall w ev, loading (display w) = false ->
                loading (display (step w ev)) = true -> ev = RefreshClicked) /\
  (forall p evs, ~ In RefreshClicked evs ->
                 loading (display (run (step mounted (RequestSettled p)) evs)) = false).
Proof.
  split; [reflexivity|].
  split; [apply settle_clears_loading|].
  split; [intros p w; rewrite fetchNodes_halves; apply settle_clears_loading|].
  split; [reflexivity|].
  split.
  - intros w ev Hl Ht. destruct ev as [| | p]; [|reflexivity|].
    + simpl in Ht. congruence.
    + simpl in Ht. rewrite settle_clears_loading in Ht. discriminate.
  - intros p evs Hin. apply run_keeps_loading_false; [exact Hin|].
    simpl. apply settle_clears_loading.
Qed.

Lemma loading_raised_only_by_handleRefresh_witness :
  let first := {| fetched := inl (ErrorObject "Failed to fetch");
                  now := 10; nullReadMessage := "";
                  conversionMessage := "" |} in
  let second := {| fetched := inr {| ok := true; status := 200;
                                     json := inr (JArr []) |};
                   now := 10010; nullReadMessage := "";
                   conversionMessage := "" |} in
  loading (display (run (step mounted (RequestSettled first))
                        [TimerFired; RequestSettled second; TimerFired])) = false.
Proof.
  intros first second.
  apply (proj2 (proj2 (proj2 (proj2 (proj2 loading_raised_only_by_handleRefresh))))).
  simpl. intros [H|[H|[H|[]]]]; discriminate.
Defined.

(** ** The two failure channels *)

(** A body may carry an [error] entry and a [details] entry and still not
    fail the poll: the [error] entry has to be truthy. Here the empty
    [error] lets the object through: no message, no notification, and
    the object becomes the node list, which the panel cannot map. *)
Lemma empty_error_marker_is_no_failure :
  let body := JObj [("error", JStr ""); ("details", JStr "backend unavailable")] in
  let p := {| fetched := inr {| ok := true; status := 200; json := inr body |};
              now := 1; nullReadMessage := "";
              conversionMessage := "" |} in
  let w := exec (fetchNodes p) {| display := initialState; toasts := [] |} in
  lookup "error" [("error", JStr ""); ("details", JStr "backend unavailable")]
  = Some (JStr "") /\
  error (display w) = None /\ toasts w = [] /\ nodes (display w) = body /\
  mainContent (display w) = None.
Proof. repeat split. Qed.

(** C5. With a response in hand, the status check throws exactly when
    the status is not a success, and the poll then fails with a message
    that gives the status, without reading the body. On a success status
    the body check throws exactly when the [error] entry of the body is
    truthy; the message is made from the [details] entry when that one is
    truthy and from the [error] entry otherwise, and when that value has
    no string conversion (an object with an entry named [toString]) the
    poll fails with the engine's error instead. A [null] body fails too,
    at the reading of its [error] field. Any other body whose [error]
    entry is missing or falsy is stored and nothing fails. All this holds
    in whatever state the request settles; [fetchNodes] run in one piece
    settles in the state it has cleared. *)
Theorem fetchNodes_failure_channels (p : Poll) (r : Response) (w : World) :
  fetched p = inr r ->
  ((exists e, checkStatus r w = (Threw e, w)) <-> ok r = false) /\
  (ok r = false ->
   exec (fetchNodes_settle p) w =
   reported (ErrorObject ("API 响应错误: " ++ toString (of_Z (status r)))) w) /\
  (forall entries,
     (exists e, checkBody p (JObj entries) w = (Threw e, w))
     <-> truthyValue (lookup "error" entries) = true) /\
  (ok r = true ->
   forall entries text,
     json r = inr (JObj entries) ->
     truthyValue (lookup "error" entries) = true ->
     stringOf (if truthyValue (lookup "details" entries)
               then lookup "details" entries
               else lookup "error" entries) = Some text ->
     exec (fetchNodes_settle p) w = reported (ErrorObject ("后端错误: " ++ text)) w) /\
  (ok r = true ->
   forall entries,
     json r = inr (JObj entries) ->
     truthyValue (lookup "error" entries) = true ->
     stringOf (if truthyValue (lookup "details" entries)
               then lookup "details" entries
               else lookup "error" entries) = None ->
     exec (fetchNodes_settle p) w = reported (ErrorObject (conversionMessage p)) w) /\
  (ok r = true ->
   json r = inr JNull ->
   exec (fetchNodes_settle p) w = reported (ErrorObject (nullReadMessage p)) w) /\
  (ok r = true ->
   forall data,
     json r = inr data -> data <> JNull ->
     truthyValue (match data with JObj entries => lookup "error" entries | _ => None end)
       = false ->
     exec (fetchNodes_settle p) w = stored data (now p) w) /\
  exec (fetchNodes p) w = exec (fetchNodes_settle p) (cleared w).
Proof.
  intros E. split; [|split; [|split; [|split; [|split; [|split; [|split]]]]]].
  - unfold checkStatus, throw, ret. destruct (ok r); simpl; split.
    + intros [e H]. discriminate.
    + discriminate.
    + reflexivity.
    + intros _. eexists. reflexivity.
  - intros Eok. apply fetchNodes_settle_fails. now apply fails_status.
  - intros entries. unfold_js.
    destruct (truthyValue (lookup "error" entries)); split.
    + reflexivity.
    + intros _.
      destruct (stringOf (if truthyValue (lookup "details" entries)
                          then lookup "details" entries
                          else lookup "error" entries));
        eexists; reflexivity.
    + intros [e H]. discriminate.
    + discriminate.
  - intros Eok entries text Ej Et Es. apply fetchNodes_settle_fails.
    now apply fails_backend with (r := r) (entries := entries).
  - intros Eok entries Ej Et Es. apply fetchNodes_settle_fails.
    now apply fails_conversion with (r := r) (entries := entries).
  - intros Eok Ej. apply fetchNodes_settle_fails.
    now apply fails_null with (r := r).
  - intros Eok data Ej Hn Et. apply fetchNodes_settle_succeeds.
    now apply succeeds_with with (r := r).
  - rewrite fetchNodes_halves. reflexivity.
Qed.

Lemma fetchNodes_failure_channels_witness :
  let w := {| display := initialState; toasts := [] |} in
  let bad := {| ok := false; status := 502; json := inr (JArr []) |} in
  let body := JObj [("error", JStr "query failed");
                    ("details", JStr "easytier-cli exited with code 1")] in
  let refused := {| ok := true; status := 200; json := inr body |} in
  let unprintable := {| ok := true; status := 200;
                   json := inr (JObj [("error", JObj [("toString", JStr "x")])]) |} in
  let empty := {| ok := true; status := 200; json := inr JNull |} in
  let poll r := {| fetched := inr r; now := 1;
                   nullReadMessage := "Cannot read properties of null (reading 'error')";
                   conversionMessage := "Cannot convert object to primitive value" |} in
  error (display (exec (fetchNodes_settle (poll bad)) w)) = Some "API 响应错误: 502" /\
  error (display (exec (fetchNodes_settle (poll refused)) w))
  = Some "后端错误: easytier-cli exited with code 1" /\
  error (display (exec (fetchNodes_settle (poll unprintable)) w))
  = Some "Cannot convert object to primitive value" /\
  error (display (exec (fetchNodes_settle (poll empty)) w))
  = Some "Cannot read properties of null (reading 'error')".
Proof.
  intros w bad body refused unprintable empty poll.
  split; [|split; [|split]].
  - destruct (fetchNodes_failure_channels (poll bad) bad w eq_refl)
      as (_ & Hstatus & _).
    rewrite (Hstatus eq_refl). vm_compute. reflexivity.
  - destruct (fetchNodes_failure_channels (poll refused) refused w eq_refl)
      as (_ & _ & _ & Hbody & _).
    rewrite (Hbody eq_refl _ _ eq_refl eq_refl eq_refl). vm_compute. reflexivity.
  - destruct (fetchNodes_failure_channels (poll unprintable) unprintable w eq_refl)
      as (_ & _ & _ & _ & Hconv & _).
    rewrite (Hconv eq_refl _ eq_refl eq_refl eq_refl). vm_compute. reflexivity.
  - destruct (fetchNodes_failure_channels (poll empty) empty w eq_refl)
      as (_ & _ & _ & _ & _ & Hnull & _).
    rewrite (Hnull eq_refl eq_refl). vm_compute. reflexivity.
Defined.

(** ** The main panel *)

(** An error field that holds the empty string is not null, and yet is
    no error to the panel. A poll that fails with an empty message
    leaves such a state behind: the panel then reports that no node was
    found. *)
Lemma empty_error_shows_no_error_panel :
  let p := {| fetched := inl (ErrorObject ""); now := 1; nullReadMessage := "";
              conversionMessage := "" |} in
  let st := display (exec (fetchNodes p) {| display := initialState; toasts := [] |}) in
  error st = Some "" /\ mainContent st = Some EmptyPanel /\
  mainContent st <> Some (ErrorPanel "" HandleRefresh).
Proof. repeat split. discriminate. Qed.

(** C6. The main panel is chosen in this order: the error panel, with
    the message and a retry button bound to [handleRefresh], when the
    error field holds a message that is not empty; else the spinner when
    the loading flag is set; else, the node list being an array, the
    empty-state panel when it has no element and the table of its rows
    otherwise. *)
Theorem mainContent_priority (st : DisplayState) :
  let message := fieldText (error st) in
  (message <> "" -> mainContent st = Some (ErrorPanel message HandleRefresh)) /\
  (message = "" -> loading st = true -> mainContent st = Some LoadingPanel) /\
  (message = "" -> loading st = false -> nodes st = JArr [] ->
   mainContent st = Some EmptyPanel) /\
  (message = "" -> loading st = false ->
   forall node rest, nodes st = JArr (node :: rest) ->
   mainContent st = Some (NodeTable (mapi renderRow (node :: rest)))).
Proof.
  cbv zeta. unfold mainContent.
  destruct (error st) as [[|c msg]|]; simpl.
  all: split; [intros H; congruence|].
  all: split; [intros H; try discriminate; intros ->; reflexivity|].
  all: split; [intros H; try discriminate; intros -> ->; reflexivity|].
  all: intros H; try discriminate; intros -> node rest ->; reflexivity.
Qed.

Lemma mainContent_priority_witness :
  let table := {| nodes := JArr [nodeWithIp (Some "10.0.0.5/24")]; loading := false;
                  error := None; lastUpdate := Some 1%Z |} in
  let failed := {| nodes := JArr [nodeWithIp (Some "10.0.0.5/24")]; loading := true;
                   error := Some "API 响应错误: 502"; lastUpdate := Some 1%Z |} in
  mainContent failed = Some (ErrorPanel "API 响应错误: 502" HandleRefresh) /\
  mainContent initialState = Some LoadingPanel /\
  mainContent {| nodes := JArr []; loading := false; error := None;
                 lastUpdate := None |} = Some EmptyPanel /\
  mainContent table
  = Some (NodeTable (mapi renderRow [nodeWithIp (Some "10.0.0.5/24")])).
Proof.
  intros table failed. split; [|split; [|split]].
  - apply (proj1 (mainContent_priority failed)). discriminate.
  - apply (proj1 (proj2 (mainContent_priority initialState))); reflexivity.
  - apply (proj1 (proj2 (proj2 (mainContent_priority
             {| nodes := JArr []; loading := false; error := None;
                lastUpdate := None |})))); reflexivity.
  - apply (proj2 (proj2 (proj2 (mainContent_priority table)))
             eq_refl eq_refl (nodeWithIp (Some "10.0.0.5/24")) []).
    reflexivity.
Defined.

(** * Further properties *)

(** ** Runs of events *)

Lemma failureOf_fails (p : Poll) (reason : Thrown) :
  failureOf p = Some reason <-> fails p reason.
Proof.
  unfold failureOf. split.
  - intros H. destruct (poll_cases p) as [[e He] | [d Hd]].
    + rewrite (afterRequest_fails _ _ _ He) in H. simpl in H. congruence.
    + rewrite (afterRequest_succeeds _ _ _ Hd) in H. discriminate.
  - intros H. now rewrite (afterRequest_fails _ _ _ H).
Qed.

Lemma answerOf_succeeds (p : Poll) (data : JsonValue) :
  answerOf p = Some data <-> succeeds p data.
Proof.
  unfold answerOf. split.
  - intros H. destruct (poll_cases p) as [[e He] | [d Hd]].
    + rewrite (afterRequest_fails _ _ _ He) in H. discriminate.
    + rewrite (afterRequest_succeeds _ _ _ Hd) in H. simpl in H. congruence.
  - intros H. now rewrite (afterRequest_succeeds _ _ _ H).
Qed.

Lemma settle_cases (p : Poll) (w : World) :
  (exists reason, failureOf p = Some reason /\ answerOf p = None /\
                  exec (fetchNodes_settle p) w = reported reason w) \/
  (exists data, failureOf p = None /\ answerOf p = Some data /\
                exec (fetchNodes_settle p) w = stored data (now p) w).
Proof.
  destruct (poll_cases p) as [[e He] | [d Hd]].
  - left. exists e. split; [now apply failureOf_fails|]. split.
    + unfold answerOf. now rewrite (afterRequest_fails _ _ _ He).
    + now apply fetchNodes_settle_fails.
  - right. exists d. split; [|split].
    + unfold failureOf. now rewrite (afterRequest_succeeds _ _ _ Hd).
    + now apply answerOf_succeeds.
    + now apply fetchNodes_settle_succeeds.
Qed.

Lemma run_app (w : World) (evs evs' : list Event) :
  run w (evs ++ evs') = run (run w evs) evs'.
Proof. apply fold_left_app. Qed.

(** X1. Notifications are sent by failing polls only, one each, in the
    order in which the polls settle, and none is ever withdrawn: after
    a run of events the log is the old log followed by one failure
    notification per failed poll of the run. *)
Theorem toasts_one_per_failed_poll (evs : list Event) (w : World) :
  toasts (run w evs) = (toasts w ++ toastsOf evs)%list.
Proof.
  revert w; induction evs as [|ev evs IH]; intros w.
  - simpl. now rewrite app_nil_r.
  - cbn [run fold_left]. fold (run (step w ev) evs). rewrite IH.
    destruct ev as [| | p]; cbn [step toastsOf flat_map]; try reflexivity.
    destruct (settle_cases p w) as [(e & Hf & _ & H) | (d & Hf & _ & H)];
      rewrite H, Hf; cbn [reported stored toasts app].
    + now rewrite <- app_assoc.
    + reflexivity.
Qed.

Lemma run_noAnswer (evs : list Event) (w : World) :
  noAnswer evs ->
  nodes (display (run w evs)) = nodes (display w) /\
  lastUpdate (display (run w evs)) = lastUpdate (display w).
Proof.
  revert w; induction evs as [|ev evs IH]; intros w Hn; [now split|].
  cbn [run fold_left]. fold (run (step w ev) evs).
  assert (Hn' : noAnswer evs) by (intros p Hp; apply Hn; now right).
  destruct (IH (step w ev) Hn') as [H1 H2]. rewrite H1, H2.
  destruct ev as [| | p]; cbn [step]; try (now split).
  destruct (settle_cases p w) as [(e & _ & _ & H) | (d & _ & Ha & H)].
  - rewrite H. now split.
  - rewrite (Hn p (or_introl eq_refl)) in Ha. discriminate.
Qed.

(** X2. Failures, timer polls and clicks change neither the node list
    nor the time of the last update: through a run in which no poll
    answers, old rows stay in the state. *)
Theorem unanswered_polls_keep_the_nodes (evs : list Event) (w : World) :
  noAnswer evs ->
  nodes (display (run w evs)) = nodes (display w) /\
  lastUpdate (display (run w evs)) = lastUpdate (display w).
Proof. apply run_noAnswer. Qed.

Lemma unanswered_polls_keep_the_nodes_witness :
  let w := {| display := {| nodes := JArr [nodeWithIp (Some "10.0.0.5/24")];
                            loading := false; error := None;
                            lastUpdate := Some 3%Z |};
              toasts := [] |} in
  let st := display (run w [TimerFired; RequestSettled lostPoll; RefreshClicked]) in
  nodes st = JArr [nodeWithIp (Some "10.0.0.5/24")] /\ lastUpdate st = Some 3%Z.
Proof.
  intros w.
  apply (unanswered_polls_keep_the_nodes
           [TimerFired; RequestSettled lostPoll; RefreshClicked] w).
  intros p [H | [H | [H | []]]]; try discriminate. injection H as <-. reflexivity.
Defined.

(** X3. The node list and the time of the last update are those of the
    poll that answered last, whatever was issued or settled before it
    and whichever polls fail after it: the order of settlement decides,
    not the order of the calls. *)
Theorem last_answer_wins
    (before after : list Event) (p : Poll) (data : JsonValue) (w : World) :
  answerOf p = Some data -> noAnswer after ->
  let w' := run w (before ++ RequestSettled p :: after) in
  nodes (display w') = data /\ lastUpdate (display w') = Some (now p).
Proof.
  intros Ha Hn. cbv zeta. rewrite run_app. cbn [run fold_left].
  fold (run (step (run w before) (RequestSettled p)) after).
  destruct (run_noAnswer after (step (run w before) (RequestSettled p)) Hn) as [H1 H2].
  rewrite H1, H2. cbn [step].
  apply answerOf_succeeds in Ha.
  rewrite (fetchNodes_settle_succeeds _ _ _ Ha). now split.
Qed.

Lemma last_answer_wins_witness :
  let first := answerPoll [nodeWithIp (Some "10.0.0.1/24")] 10 in
  let second := answerPoll [nodeWithIp (Some "10.0.0.2/24")] 5 in
  let st := display (run mounted ([TimerFired; RequestSettled first]
                                  ++ RequestSettled second
                                  :: [TimerFired; RequestSettled lostPoll])) in
  nodes st = JArr [nodeWithIp (Some "10.0.0.2/24")] /\ lastUpdate st = Some 5%Z.
Proof.
  intros first second.
  apply (last_answer_wins [TimerFired; RequestSettled first]
           [TimerFired; RequestSettled lostPoll] second
           (JArr [nodeWithIp (Some "10.0.0.2/24")]) mounted).
  - reflexivity.
  - intros p [H | [H | []]]; try discriminate. injection H as <-. reflexivity.
Defined.

(** X4. A manual refresh and an automatic poll that meet the same
    answer end in the same state and the same notifications: the
    loading flag that [handleRefresh] raises is down again when the
    poll is over. *)
Theorem handleRefresh_ends_as_fetchNodes (p : Poll) (w : World) :
  exec (handleRefresh p) w = exec (fetchNodes p) w.
Proof.
  rewrite handleRefresh_halves, fetchNodes_halves.
  destruct (poll_cases p) as [[e He] | [d Hd]].
  - now rewrite !(fetchNodes_settle_fails _ _ _ He).
  - now rewrite !(fetchNodes_settle_succeeds _ _ _ Hd).
Qed.

(** X5. The error panel lasts until the next poll starts. In a state
    that shows the error panel over a node list that is not empty, the
    start of a timer poll clears the error, and the table of the old
    rows is back before any answer has come. *)
Theorem stale_table_returns_when_next_poll_starts
    (w : World) (node : Node) (rest : list Node) (c : ascii) (msg : string) :
  nodes (display w) = JArr (node :: rest) ->
  loading (display w) = false ->
  error (display w) = Some (String c msg) ->
  mainContent (display w) = Some (ErrorPanel (String c msg) HandleRefresh) /\
  mainContent (display (step w TimerFired))
  = Some (NodeTable (mapi renderRow (node :: rest))).
Proof.
  intros Hn Hl He. split.
  - unfold mainContent. now rewrite He.
  - cbn [step]. unfold mainContent, exec, fetchNodes_issue, setError, update.
    cbn [snd display error loading nodes]. now rewrite Hl, Hn.
Qed.

Lemma stale_table_returns_when_next_poll_starts_witness :
  let w := {| display := {| nodes := JArr [nodeWithIp (Some "10.0.0.5/24")];
                            loading := false; error := Some "Failed to fetch";
                            lastUpdate := Some 3%Z |};
              toasts := [] |} in
  mainContent (display w) = Some (ErrorPanel "Failed to fetch" HandleRefresh) /\
  mainContent (display (step w TimerFired))
  = Some (NodeTable (mapi renderRow [nodeWithIp (Some "10.0.0.5/24")])).
Proof.
  intros w.
  apply (stale_table_returns_when_next_poll_starts w
           (nodeWithIp (Some "10.0.0.5/24")) [] "F" "ailed to fetch"); reflexivity.
Defined.






(** ** What a poll leaves on display *)

(** X7. An answer that is not an array and carries no truthy [error]
    entry is stored as the node list all the same, in whatever state the
    request settles, and no row is ever shown for it. With no error
    message in that state the main panel cannot show it: rendering
    throws, unless the value has a length of zero (the empty string, an
    object with [length: 0]), which gives the empty-state panel. With
    the message of a poll that has failed meanwhile, the error panel
    stays. [fetchNodes] run in one piece has cleared the error field,
    and is in the first case. *)
Theorem answer_that_is_no_array_cannot_be_shown
    (p : Poll) (data : JsonValue) (w : World) :
  answerOf p = Some data -> isArray data = false ->
  let st := display (exec (fetchNodes_settle p) w) in
  nodes st = data /\
  tableRows (mainContent st) = [] /\
  (fieldText (error (display w)) = "" ->
   mainContent st = match length_is_zero data with
                    | Some true => Some EmptyPanel
                    | _ => None
                    end) /\
  (fieldText (error (display w)) <> "" ->
   mainContent st = Some (ErrorPanel (fieldText (error (display w))) HandleRefresh)) /\
  mainContent (display (exec (fetchNodes p) w))
  = match length_is_zero data with
    | Some true => Some EmptyPanel
    | _ => None
    end.
Proof.
  intros Ha Hn. apply answerOf_succeeds in Ha. cbv zeta.
  rewrite fetchNodes_halves, fetchNodes_issue_cleared.
  rewrite !(fetchNodes_settle_succeeds _ _ _ Ha).
  assert (E : forall v, fieldText (error (display v)) = "" ->
              mainContent (display (stored data (now p) v))
              = match length_is_zero data with
                | Some true => Some EmptyPanel
                | _ => None
                end).
  { intros v Hv. unfold mainContent. cbn [stored display error loading nodes].
    destruct (error (display v)) as [[|c msg]|]; [| discriminate Hv |];
      destruct data; try discriminate; reflexivity. }
  split; [reflexivity|]. split; [|split; [|split]].
  - destruct (string_dec (fieldText (error (display w))) "") as [Hv | Hv].
    + rewrite (E w Hv). now destruct (length_is_zero data) as [[|]|].
    + unfold mainContent. cbn [stored display error loading nodes].
      destruct (error (display w)) as [[|c msg]|];
        [now elim Hv | reflexivity | now elim Hv].
  - apply E.
  - intros Hv. unfold mainContent. cbn [stored display error loading nodes].
    destruct (error (display w)) as [[|c msg]|]; [now elim Hv | reflexivity | now elim Hv].
  - apply E. reflexivity.
Qed.

Lemma answer_that_is_no_array_cannot_be_shown_witness :
  let p := {| fetched := inr {| ok := true; status := 200;
                                json := inr (JObj [("nodes", JArr [])]) |};
              now := 4; nullReadMessage := "";
              conversionMessage := "" |} in
  let st := display (exec (fetchNodes_settle p) (exec (fetchNodes lostPoll) mounted)) in
  nodes st = JObj [("nodes", JArr [])] /\
  tableRows (mainContent st) = [] /\
  mainContent st = Some (ErrorPanel "Failed to fetch" HandleRefresh) /\
  mainContent (display (exec (fetchNodes p) (exec (fetchNodes lostPoll) mounted))) = None.
Proof.
  intros p.
  destruct (answer_that_is_no_array_cannot_be_shown p (JObj [("nodes", JArr [])])
              (exec (fetchNodes lostPoll) mounted) eq_refl eq_refl)
    as (Hn & Hr & _ & He & Ha).
  split; [exact Hn|]. split; [exact Hr|]. split; [|exact Ha].
  apply He. discriminate.
Defined.

(** X8. The status card and the main panel agree on what an error is:
    the status line reads "连接异常" exactly when the main panel is the
    error panel. *)
Theorem statusCard_agrees_with_mainContent (st : DisplayState) :
  (exists card, statusCard st = Some card /\ statusText card = "连接异常")
  <-> (exists msg, mainContent st = Some (ErrorPanel msg HandleRefresh)).
Proof.
  unfold statusCard, mainContent.
  destruct (error st) as [[|c msg]|].
  2:{ split; intros _; eexists; [reflexivity | split; reflexivity]. }
  all: split.
  all: try (intros [card [H Ht]];
            destruct (lengthText (nodes st)); [|discriminate];
            injection H as <-; cbn [statusText append] in Ht; discriminate).
  all: intros [m H]; destruct (loading st); try discriminate;
    destruct (length_is_zero (nodes st)) as [[|]|]; try discriminate;
    destruct (map_rows (nodes st)); discriminate.
Qed.

Lemma statusCard_agrees_with_mainContent_witness :
  let st := {| nodes := JArr []; loading := false;
               error := Some "Failed to fetch"; lastUpdate := None |} in
  exists msg, mainContent st = Some (ErrorPanel msg HandleRefresh).
Proof.
  intros st.
  apply (proj1 (statusCard_agrees_with_mainContent st)).
  eexists. split; reflexivity.
Defined.

(** ** Rows *)

Lemma keys_mapi_from (rows : list Node) (i : nat) :
  map key (mapi_from renderRow i rows) = seq i (List.length rows).
Proof.
  revert i; induction rows as [|node rows IH]; intros i; simpl; [reflexivity|].
  now rewrite IH.
Qed.

(** X9. The keys of the rows are the positions of the nodes in the list,
    from 0 on: no two rows of a table share a key. *)
Theorem row_keys_are_the_positions (rows : list Node) :
  map key (mapi renderRow rows) = seq 0 (List.length rows) /\
  NoDup (map key (mapi renderRow rows)).
Proof.
  unfold mapi. rewrite keys_mapi_from. split; [reflexivity | apply seq_NoDup].
Qed.

(** X10. A poll that answers does not clear the error that a poll
    failing meanwhile has set. When a timer poll and a manual refresh
    overlap, the first failing and the second answering afterwards, the
    state holds the new rows and their time and still the failure's
    message, and the main panel is the error panel. *)
Theorem answer_keeps_error_of_overlapping_failure
    (w : World) (failing answering : Poll) (c : ascii) (msg : string)
    (data : JsonValue) :
  failureOf failing = Some (ErrorObject (String c msg)) ->
  answerOf answering = Some data ->
  let st := display (run w [TimerFired; RefreshClicked;
                            RequestSettled failing; RequestSettled answering]) in
  nodes st = data /\ lastUpdate st = Some (now answering) /\
  error st = Some (String c msg) /\
  mainContent st = Some (ErrorPanel (String c msg) HandleRefresh).
Proof.
  intros Hf Ha. apply failureOf_fails in Hf. apply answerOf_succeeds in Ha.
  cbv zeta. cbn [run fold_left step].
  rewrite (fetchNodes_settle_succeeds _ _ _ Ha), (fetchNodes_settle_fails _ _ _ Hf).
  repeat split.
Qed.

Lemma answer_keeps_error_of_overlapping_failure_witness :
  let fresh := answerPoll [nodeWithIp (Some "10.0.0.2/24")] 9 in
  let st := display (run mounted [TimerFired; RefreshClicked;
                                  RequestSettled lostPoll; RequestSettled fresh]) in
  nodes st = JArr [nodeWithIp (Some "10.0.0.2/24")] /\ lastUpdate st = Some 9%Z /\
  error st = Some "Failed to fetch" /\
  mainContent st = Some (ErrorPanel "Failed to fetch" HandleRefresh).
Proof.
  intros fresh.
  apply (answer_keeps_error_of_overlapping_failure mounted lostPoll fresh
           "F" "ailed to fetch" (JArr [nodeWithIp (Some "10.0.0.2/24")]));
    reflexivity.
Defined.

(** ** Cells *)
Lemma or_else_not_empty (v : option string) (d : string) :
  d <> "" -> or_else v d <> "".
Proof. intros Hd. destruct v as [[|c s]|]; simpl; [exact Hd | discriminate | exact Hd]. Qed.

Lemma append_char_not_empty (a b : string) (x : ascii) : a ++ String x b <> "".
Proof. destruct a; discriminate. Qed.

Lemma render_shortest_not_empty (d p : Z) : render_shortest d p <> "".
Proof.
  unfold render_shortest, exponent_part.
  destruct (digits_head d) as (c & rest & Hd & _).
  generalize dependent (digits d); intros ds ->.
  repeat match goal with |- context [if ?b then _ else _] => destruct b end;
    cbn [append]; try discriminate; apply append_char_not_empty.
Qed.

Lemma toString_not_empty (x : number) : toString x <> "".
Proof.
  destruct x as [s | s | | s m e]; try discriminate.
  - destruct s; discriminate.
  - unfold toString.
    destruct (shortest 700 (rounding_interval m e) (magnitude (S754_finite s m e)) 309)
      as [d p].
    pose proof (render_shortest_not_empty d p) as H.
    destruct s; cbn [append]; [discriminate | exact H].
Qed.

Lemma fixed_point_not_empty (f : nat) (n : Z) : fixed_point f n <> "".
Proof.
  unfold fixed_point. destruct f as [|f].
  - destruct (digits_head n) as (c & rest & -> & _). discriminate.
  - apply append_char_not_empty.
Qed.

Lemma toFixed_not_empty (f : nat) (x : number) : toFixed f x <> "".
Proof.
  destruct x as [s | s | | s m e].
  - apply fixed_point_not_empty.
  - destruct s; discriminate.
  - discriminate.
  - unfold toFixed. destruct (Qle_bool _ _); [apply toString_not_empty|].
    pose proof (fixed_point_not_empty f
      (round_half_up (magnitude (S754_finite s m e) * pow10 (Z.of_nat f)))) as H.
    destruct s; cbn [append]; [discriminate | exact H].
Qed.

Lemma formatToMB_not_empty (bytes : option number) : formatToMB bytes <> "".
Proof.
  unfold formatToMB. destruct bytes as [b|]; [|discriminate].
  destruct (negb (truthy b)); [discriminate | apply toFixed_not_empty].
Qed.

Lemma createStatusBadge_children (cost : option string) :
  children (createStatusBadge cost) <> "".
Proof.
  unfold createStatusBadge.
  repeat match goal with |- context [if ?b then _ else _] => destruct b end;
    try discriminate.
  cbn [rawBadge children]. apply or_else_not_empty. discriminate.
Qed.

(** X11. No cell of a row is blank but, at times, the address: host,
    connection mode, latency, received and sent megabytes and tunnel
    always hold some text, a "-" at least. The address cell is blank
    exactly when the [virtual_ip] is absent or empty or starts with a
    '/'. *)
Theorem row_cells_are_never_blank (node : Node) (index : nat) :
  let row := renderRow node index in
  hostCell row <> "" /\ children (modeCell row) <> "" /\ latencyCell row <> "" /\
  rxMb row <> "" /\ txMb row <> "" /\ tunnelCell row <> "" /\
  (ipCell row = "" <->
   fieldText (virtual_ip node) = "" \/
   exists rest, fieldText (virtual_ip node) = String "/" rest).
Proof.
  cbv zeta. cbn [renderRow hostCell modeCell latencyCell rxMb txMb tunnelCell ipCell].
  split; [apply or_else_not_empty; discriminate|].
  split; [apply createStatusBadge_children|].
  split.
  { unfold latency. destruct (latency_ms node) as [l|]; [|discriminate].
    destruct (gtb l (of_Z 0)); [apply toFixed_not_empty | discriminate]. }
  split; [apply formatToMB_not_empty|].
  split; [apply formatToMB_not_empty|].
  split; [apply or_else_not_empty; discriminate|].
  unfold cleanIp.
  assert (E : or_else (virtual_ip node) "" = fieldText (virtual_ip node))
    by (now destruct (virtual_ip node) as [[|c s]|]).
  rewrite E. generalize (fieldText (virtual_ip node)); intros ip.
  destruct ip as [|c ip]; [simpl; split; auto|].
  cbn [split]. destruct (Ascii.eqb_spec c "/") as [->|Hne].
  - simpl. split; [intros _; right; now exists ip | reflexivity].
  - destruct (split "/" ip) as [|piece pieces]; simpl.
    + split; [discriminate | intros [H | [rest H]]; [discriminate | congruence]].
    + split; [discriminate | intros [H | [rest H]]; [discriminate | congruence]].
Qed.

Lemma row_cells_are_never_blank_witness :
  ipCell (renderRow (nodeWithIp (Some "/24")) 0) = "".
Proof.
  apply (proj2 (proj2 (proj2 (proj2 (proj2 (proj2
           (row_cells_are_never_blank (nodeWithIp (Some "/24")) 0))))))).
  right. now exists "24".
Defined.

(** X12. Stripping is idempotent: an address that was shown, taken as a
    [virtual_ip], is shown unchanged. *)
Theorem cleanIp_idempotent (node : Node) :
  cleanIp (nodeWithIp (Some (cleanIp node))) = cleanIp node.
Proof.
  unfold cleanIp at 1. cbn [nodeWithIp virtual_ip].
  assert (E : or_else (Some (cleanIp node)) "" = cleanIp node)
    by (now destruct (cleanIp node)).
  rewrite E.
  assert (M : mem "/" (cleanIp node) = false).
  { unfold cleanIp.
    destruct (split_head "/" (or_else (virtual_ip node) ""))
      as (piece & pieces & Hs & Hm & _).
    now rewrite Hs. }
  now rewrite (split_no_separator _ _ M).
Qed.

(** ** Badges *)
Lemma toLowerCase_empty (s : string) : toLowerCase s = "" -> s = "".
Proof. destruct s; [reflexivity | discriminate]. Qed.

Lemma mode_of_lowered (a b : string) :
  toLowerCase a = toLowerCase b ->
  toLowerCase (or_else (Some a) "unknown") = toLowerCase (or_else (Some b) "unknown").
Proof.
  intros H. destruct a as [|x a], b as [|y b]; try discriminate; [reflexivity | exact H].
Qed.

(** X13. The connection mode does not depend on letter case: two cost
    texts that differ by case only get badges of the same icon, variant
    and class, and the very same badge when it is one of the three known
    modes (the fallback badge shows each text as it was written). *)
Theorem createStatusBadge_ignores_case (a b : string) :
  toLowerCase a = toLowerCase b ->
  icon (createStatusBadge (Some a)) = icon (createStatusBadge (Some b)) /\
  variant (createStatusBadge (Some a)) = variant (createStatusBadge (Some b)) /\
  className (createStatusBadge (Some a)) = className (createStatusBadge (Some b)) /\
  (icon (createStatusBadge (Some a)) <> None ->
   createStatusBadge (Some a) = createStatusBadge (Some b)).
Proof.
  intros H. unfold createStatusBadge. cbv zeta.
  rewrite (mode_of_lowered a b H).
  repeat match goal with |- context [if ?c then _ else _] => destruct c end;
    repeat split; try reflexivity.
  intros N. now contradiction N.
Qed.

Lemma createStatusBadge_ignores_case_witness :
  createStatusBadge (Some "P2P") = createStatusBadge (Some "p2p").
Proof.
  apply (proj2 (proj2 (proj2 (createStatusBadge_ignores_case "P2P" "p2p" eq_refl)))).
  discriminate.
Defined.

(** X14. "local" has the first rank: a cost text classified as a local
    link stays one whatever is written before and after it. *)
Theorem local_wins_in_any_context (cost pre post : string) :
  createStatusBadge (Some cost) = localBadge ->
  createStatusBadge (Some (pre ++ cost ++ post)) = localBadge.
Proof.
  unfold createStatusBadge. cbv zeta.
  destruct (includes (toLowerCase (or_else (Some cost) "unknown")) "local") eqn:E.
  2:{ repeat match goal with |- context [if ?c then _ else _] => destruct c end;
        discriminate. }
  intros _.
  assert (Hc : includes (toLowerCase cost) "local" = true).
  { destruct cost; [discriminate | exact E]. }
  apply includes_iff in Hc as (l & r & Hc).
  assert (Hm : includes (toLowerCase (pre ++ cost ++ post)) "local" = true).
  { apply includes_iff. exists (toLowerCase pre ++ l), (r ++ toLowerCase post).
    rewrite !toLowerCase_append, Hc, !append_assoc. reflexivity. }
  assert (Hne : or_else (Some (pre ++ cost ++ post)) "unknown" = pre ++ cost ++ post).
  { destruct (pre ++ cost ++ post); [discriminate | reflexivity]. }
  now rewrite Hne, Hm.
Qed.

Lemma local_wins_in_any_context_witness :
  createStatusBadge (Some ("p2p-" ++ "Local" ++ "-relay")) = localBadge.
Proof.
  apply (local_wins_in_any_context "Local" "p2p-" "-relay"). reflexivity.
Defined.

(** ** Reading the numbers back *)
Section ReadBack.

Local Open Scope Z_scope.

Lemma readNat_append (a b : string) (acc : Z) :
  readNat acc (a ++ b) =
  match readNat acc a with
  | Some v => readNat v b
  | None => None
  end.
Proof.
  revert acc; induction a as [|c a IH]; intros acc; cbn [append readNat]; [reflexivity|].
  destruct (isDigit c); [apply IH | reflexivity].
Qed.

Lemma readNat_uint_acc (d : Decimal.uint) (acc : positive) :
  readNat (Z.pos acc) (NilEmpty.string_of_uint d) = Some (Z.pos (Pos.of_uint_acc d acc)).
Proof.
  revert acc; induction d; intros acc; cbn [NilEmpty.string_of_uint readNat Pos.of_uint_acc];
    [reflexivity | ..];
    match goal with
    | |- context [isDigit ?c] => change (isDigit c) with true; cbv iota
    end;
    match goal with
    | |- readNat ?v _ = _ =>
        match goal with
        | |- _ = Some (Z.pos (Pos.of_uint_acc _ ?a)) =>
            replace v with (Z.pos a)
              by (repeat match goal with
                         | |- context [Z.of_nat (nat_of_ascii ?c)] =>
                             let k := eval vm_compute in (Z.of_nat (nat_of_ascii c)) in
                             change (Z.of_nat (nat_of_ascii c)) with k
                         end; lia)
        end
    end; apply IHd.
Qed.

Lemma readNat_uint (d : Decimal.uint) :
  readNat 0 (NilEmpty.string_of_uint d) = Some (Z.of_N (Pos.of_uint d)).
Proof.
  induction d; cbn [NilEmpty.string_of_uint readNat Pos.of_uint]; [reflexivity | ..];
    match goal with
    | |- context [isDigit ?c] => change (isDigit c) with true; cbv iota
    end;
    [exact IHd | ..];
    match goal with
    | |- _ = Some (Z.of_N (N.pos (Pos.of_uint_acc _ ?a))) => apply (readNat_uint_acc d a)
    end.
Qed.

Lemma readNat_digits (n : Z) : 0 <= n -> readNat 0 (digits n) = Some n.
Proof.
  intros Hn. unfold digits, NilZero.string_of_uint.
  assert (E : Z.of_N (Pos.of_uint (N.to_uint (Z.to_N n))) = n).
  { change (Pos.of_uint (N.to_uint (Z.to_N n))) with (N.of_uint (N.to_uint (Z.to_N n))).
    rewrite DecimalN.Unsigned.of_to. now apply Z2N.id. }
  destruct (N.to_uint (Z.to_N n)) eqn:Ed;
    try (rewrite <- E; apply readNat_uint).
  rewrite <- E. reflexivity.
Qed.

Lemma digit_value (k : Z) :
  0 <= k < 10 -> Z.of_nat (nat_of_ascii (ascii_of_nat (48 + Z.to_nat k))) - 48 = k.
Proof.
  intros H. rewrite nat_ascii_embedding by lia. lia.
Qed.

Lemma readNat_frac_digits (f : nat) (r acc : Z) :
  readNat acc (frac_digits f r) = Some (acc * 10 ^ Z.of_nat f + r mod 10 ^ Z.of_nat f).
Proof.
  revert r acc; induction f as [|f IH]; intros r acc.
  - cbn [frac_digits readNat]. rewrite Z.mod_1_r. f_equal. simpl. lia.
  - cbn [frac_digits]. rewrite readNat_append, IH. cbn [readNat].
    assert (B : 0 <= r mod 10 < 10) by (apply Z.mod_pos_bound; lia).
    rewrite (digit_char _ B), (digit_value _ B). f_equal.
    rewrite Nat2Z.inj_succ, Z.pow_succ_r by lia.
    assert (P : 0 < 10 ^ Z.of_nat f) by (apply Z.pow_pos_nonneg; lia).
    rewrite (Z.rem_mul_r r 10 (10 ^ Z.of_nat f)) by lia. ring.
Qed.

Lemma readFixed_fixed_point (f : nat) (n : Z) :
  f <> 0%nat -> 0 <= n -> readFixed f (fixed_point f n) = Some n.
Proof.
  intros Hf Hn. unfold fixed_point, readFixed. destruct f as [|f]; [congruence|].
  destruct (frac_digits_shape (S f) n) as [Ha Hl].
  rewrite split_at_point
    by (apply allDigits_no_point; first [apply digits_allDigits | exact Ha]).
  rewrite Hl, Nat.eqb_refl.
  assert (P : 0 < 10 ^ Z.of_nat (S f)) by (apply Z.pow_pos_nonneg; lia).
  rewrite readNat_digits by (apply Z.div_pos; lia).
  rewrite readNat_frac_digits. f_equal.
  rewrite Z.mul_0_l, Z.add_0_l.
  pose proof (Z.div_mod n (10 ^ Z.of_nat (S f))). lia.
Qed.

End ReadBack.

(** ** Accuracy of the numbers on display *)
Section Accuracy.

Local Open Scope Z_scope.

Lemma round_half_up_bounds (y : Q) :
  (inject_Z (round_half_up y) - (1 # 2) <= y /\
   y < inject_Z (round_half_up y) + (1 # 2))%Q.
Proof.
  unfold round_half_up.
  pose proof (Qfloor_le (y + (1 # 2))) as H1.
  pose proof (Qlt_floor (y + (1 # 2))) as H2.
  rewrite inject_Z_plus in H2. change (inject_Z 1) with 1%Q in H2.
  split; lra.
Qed.

Lemma round_half_up_nonneg (y : Q) : (0 <= y)%Q -> 0 <= round_half_up y.
Proof.
  intros H. destruct (round_half_up_bounds y) as [_ H2].
  assert (L : (inject_Z (-1) < inject_Z (round_half_up y))%Q)
    by (change (inject_Z (-1)) with (-1 # 1)%Q; lra).
  rewrite <- Zlt_Qlt in L. lia.
Qed.

Lemma round_half_up_zero (y : Q) :
  (0 <= y)%Q -> (round_half_up y = 0 <-> (y < 1 # 2)%Q).
Proof.
  intros H. destruct (round_half_up_bounds y) as [H1 H2]. split.
  - intros E. rewrite E in H2. change (inject_Z 0) with 0%Q in H2. lra.
  - intros Hy. pose proof (round_half_up_nonneg y H) as Hn.
    assert (L : (inject_Z (round_half_up y) < inject_Z 1)%Q)
      by (change (inject_Z 1) with 1%Q; lra).
    rewrite <- Zlt_Qlt in L. lia.
Qed.

Lemma magnitude_nonneg (x : number) : (0 <= magnitude x)%Q.
Proof.
  destruct x as [s | s | | s m e]; try apply Qle_refl.
  unfold magnitude. apply Qmult_le_0_compat; [discriminate|].
  apply Qlt_le_weak, Qpower_0_lt. reflexivity.
Qed.

(** The megabytes of a normal count whose quotient is normal. *)
Lemma formatToMB_normal (s : bool) (m : positive) (e : Z) :
  digits2_pos m = 53%positive -> -1054 <= e <= 971 ->
  (magnitude (S754_finite s m e) / 1048576 < 10 ^ 21)%Q ->
  formatToMB (Some (S754_finite s m e))
  = (if s then "-" else "")
    ++ fixed_point 2 (round_half_up (magnitude (S754_finite s m e) / 1048576 * 100)).
Proof.
  intros Hd He Hq. unfold formatToMB. cbn [truthy negb].
  rewrite (div_by_MB_exact s m e Hd He).
  rewrite toFixed_in_range by (now rewrite magnitude_div_MB).
  f_equal. f_equal. apply round_half_up_comp.
  rewrite magnitude_div_MB. reflexivity.
Qed.

Lemma latency_finite (node : Node) (m : positive) (e : Z) :
  latency_ms node = Some (S754_finite false m e) ->
  (magnitude (S754_finite false m e) < 10 ^ 21)%Q ->
  latency node = fixed_point 1 (round_half_up (magnitude (S754_finite false m e) * 10)).
Proof.
  intros E H. unfold latency. rewrite E.
  change (gtb (S754_finite false m e) (of_Z 0)) with true. cbv iota.
  now rewrite toFixed_in_range.
Qed.

(** X15. The megabytes on display are right to half a hundredth. For a
    positive count (a normal number whose quotient is normal and below
    [10^21]) the text reads back as a whole number of hundredths that
    differs from count / 1,048,576 by at most half a hundredth, the tie
    going up. *)
Theorem formatToMB_reads_back_within_half_a_hundredth (m : positive) (e : Z) :
  digits2_pos m = 53%positive -> -1054 <= e <= 971 ->
  (magnitude (S754_finite false m e) / 1048576 < 10 ^ 21)%Q ->
  exists n,
    readFixed 2 (formatToMB (Some (S754_finite false m e))) = Some n /\
    (inject_Z n - (1 # 2) <= magnitude (S754_finite false m e) / 1048576 * 100 /\
     magnitude (S754_finite false m e) / 1048576 * 100 < inject_Z n + (1 # 2))%Q.
Proof.
  intros Hd He Hq.
  rewrite (formatToMB_normal false m e Hd He Hq). cbn [append].
  set (y := (magnitude (S754_finite false m e) / 1048576 * 100)%Q).
  assert (Hy : (0 <= y)%Q).
  { pose proof (magnitude_nonneg (S754_finite false m e)). unfold y.
    apply Qmult_le_0_compat; [|discriminate].
    apply Qle_shift_div_l; [reflexivity|]. now rewrite Qmult_0_l. }
  exists (round_half_up y). split.
  - apply readFixed_fixed_point; [discriminate | now apply round_half_up_nonneg].
  - apply round_half_up_bounds.
Qed.

Lemma formatToMB_reads_back_within_half_a_hundredth_witness :
  exists n,
    readFixed 2 (formatToMB (Some (of_Z 123456789))) = Some n /\
    (inject_Z n - (1 # 2)
       <= magnitude (S754_finite false 8285044862877696 (-26)) / 1048576 * 100 /\
     magnitude (S754_finite false 8285044862877696 (-26)) / 1048576 * 100
       < inject_Z n + (1 # 2))%Q.
Proof.
  change (of_Z 123456789) with (S754_finite false 8285044862877696 (-26)).
  apply (formatToMB_reads_back_within_half_a_hundredth 8285044862877696 (-26)).
  - reflexivity.
  - lia.
  - vm_compute. reflexivity.
Defined.

(** X16. The latency on display is right to half a tenth: for a finite
    positive latency below [10^21] the text reads back as a whole number
    of tenths that differs from the latency by at most half a tenth, the
    tie going up. *)
Theorem latency_reads_back_within_half_a_tenth (node : Node) (m : positive) (e : Z) :
  latency_ms node = Some (S754_finite false m e) ->
  (magnitude (S754_finite false m e) < 10 ^ 21)%Q ->
  exists n,
    readFixed 1 (latency node) = Some n /\
    (inject_Z n - (1 # 2) <= magnitude (S754_finite false m e) * 10 /\
     magnitude (S754_finite false m e) * 10 < inject_Z n + (1 # 2))%Q.
Proof.
  intros E H. rewrite (latency_finite node m e E H).
  set (y := (magnitude (S754_finite false m e) * 10)%Q).
  assert (Hy : (0 <= y)%Q).
  { pose proof (magnitude_nonneg (S754_finite false m e)). unfold y.
    apply Qmult_le_0_compat; [assumption | discriminate]. }
  exists (round_half_up y). split.
  - apply readFixed_fixed_point; [discriminate | now apply round_half_up_nonneg].
  - apply round_half_up_bounds.
Qed.

Lemma latency_reads_back_within_half_a_tenth_witness :
  exists n,
    readFixed 1 (latency (nodeWithLatency (Some (of_decimal 425 1)))) = Some n /\
    (inject_Z n - (1 # 2)
       <= magnitude (S754_finite false 5981343255101440 (-47)) * 10 /\
     magnitude (S754_finite false 5981343255101440 (-47)) * 10
       < inject_Z n + (1 # 2))%Q.
Proof.
  apply (latency_reads_back_within_half_a_tenth
           (nodeWithLatency (Some (of_decimal 425 1))) 5981343255101440 (-47)).
  - vm_compute. reflexivity.
  - vm_compute. reflexivity.
Defined.

Lemma fixed_point_zero_iff (f : nat) (n : Z) :
  f <> 0%nat -> 0 <= n -> (fixed_point f n = fixed_point f 0 <-> n = 0).
Proof.
  intros Hf Hn. split; [|now intros ->].
  intros H. pose proof (readFixed_fixed_point f n Hf Hn) as R.
  rewrite H, readFixed_fixed_point in R by (auto; lia). congruence.
Qed.

(** X17. Traffic below 5242.88 bytes shows as no traffic: a positive
    count (a normal number whose quotient is normal and below [10^21])
    is displayed as "0.00" exactly when it is below 5242.88. *)
Theorem formatToMB_shows_zero_below_5243_bytes (m : positive) (e : Z) :
  digits2_pos m = 53%positive -> -1054 <= e <= 971 ->
  (magnitude (S754_finite false m e) / 1048576 < 10 ^ 21)%Q ->
  (formatToMB (Some (S754_finite false m e)) = "0.00"
   <-> (magnitude (S754_finite false m e) < 524288 # 100)%Q).
Proof.
  intros Hd He Hq.
  rewrite (formatToMB_normal false m e Hd He Hq). cbn [append].
  set (y := (magnitude (S754_finite false m e) / 1048576 * 100)%Q).
  assert (Hy : (0 <= y)%Q).
  { pose proof (magnitude_nonneg (S754_finite false m e)). unfold y.
    apply Qmult_le_0_compat; [|discriminate].
    apply Qle_shift_div_l; [reflexivity|]. now rewrite Qmult_0_l. }
  change "0.00" with (fixed_point 2 0).
  rewrite fixed_point_zero_iff by (try discriminate; now apply round_half_up_nonneg).
  rewrite (round_half_up_zero y Hy). unfold y.
  generalize (magnitude (S754_finite false m e)); intros v.
  split; intros H.
  - assert (E : (v == v / 1048576 * 100 * (1048576 # 100))%Q) by field.
    rewrite E. setoid_replace (524288 # 100)%Q with ((1 # 2) * (1048576 # 100))%Q by reflexivity.
    apply Qmult_lt_compat_r; [reflexivity | exact H].
  - assert (E : (v / 1048576 * 100 == v * (100 # 1048576))%Q) by field.
    rewrite E. setoid_replace (1 # 2)%Q with ((524288 # 100) * (100 # 1048576))%Q by reflexivity.
    apply Qmult_lt_compat_r; [reflexivity | exact H].
Qed.

Lemma formatToMB_shows_zero_below_5243_bytes_witness :
  formatToMB (Some (of_Z 5242)) = "0.00".
Proof.
  change (of_Z 5242) with (S754_finite false 5763639952801792 (-40)).
  apply (proj2 (formatToMB_shows_zero_below_5243_bytes 5763639952801792 (-40)
                  eq_refl ltac:(lia) ltac:(vm_compute; reflexivity))).
  vm_compute. reflexivity.
Defined.

(** X18. A latency below 0.05 ms shows as zero: a finite positive
    latency below [10^21] is displayed as "0.0" exactly when it is below
    one twentieth. *)
Theorem latency_shows_zero_below_a_twentieth (node : Node) (m : positive) (e : Z) :
  latency_ms node = Some (S754_finite false m e) ->
  (magnitude (S754_finite false m e) < 10 ^ 21)%Q ->
  (latency node = "0.0" <-> (magnitude (S754_finite false m e) < 1 # 20)%Q).
Proof.
  intros E H. rewrite (latency_finite node m e E H).
  set (y := (magnitude (S754_finite false m e) * 10)%Q).
  assert (Hy : (0 <= y)%Q).
  { pose proof (magnitude_nonneg (S754_finite false m e)). unfold y.
    apply Qmult_le_0_compat; [assumption | discriminate]. }
  change "0.0" with (fixed_point 1 0).
  rewrite fixed_point_zero_iff by (try discriminate; now apply round_half_up_nonneg).
  rewrite (round_half_up_zero y Hy). unfold y.
  generalize (magnitude (S754_finite false m e)); intros v.
  split; intros L; lra.
Qed.

Lemma latency_shows_zero_below_a_twentieth_witness :
  latency (nodeWithLatency (Some (of_decimal 4 2))) = "0.0".
Proof.
  apply (proj2 (latency_shows_zero_below_a_twentieth
                  (nodeWithLatency (Some (of_decimal 4 2)))
                  5764607523034235 (-57)
                  ltac:(vm_compute; reflexivity) ltac:(vm_compute; reflexivity))).
  vm_compute. reflexivity.
Defined.

End Accuracy.

(** ** The spinner and the time of the last update *)



(** X20. Every poll does one of two things when its request settles,
    whatever it meets and in whatever state: it fails, sends one
    notification with the reason, sets the error field to it and leaves
    node list and time of the last update alone; or it answers, sends
    nothing, leaves the error field as it is and replaces node list and
    time. Either way the loading flag is cleared. *)
Theorem every_poll_reports_or_stores (p : Poll) (w : World) :
  let w' := exec (fetchNodes_settle p) w in
  loading (display w') = false /\
  ((exists reason,
      failureOf p = Some reason /\ answerOf p = None /\
      toasts w' = (toasts w ++ [failureToast reason])%list /\
      error (display w') = Some (errorMessageOf reason) /\
      nodes (display w') = nodes (display w) /\
      lastUpdate (display w') = lastUpdate (display w)) \/
   (exists data,
      failureOf p = None /\ answerOf p = Some data /\
      toasts w' = toasts w /\
      error (display w') = error (display w) /\
      nodes (display w') = data /\
      lastUpdate (display w') = Some (now p))).
Proof.
  cbv zeta.
  destruct (settle_cases p w)
    as [(e & Hf & Ha & H) | (d & Hf & Ha & H)]; rewrite H;
    (split; [reflexivity|]).
  - left. exists e. repeat split; assumption.
  - right. exists d. repeat split; assumption.
Qed.


Lemma lastUpdate_none_iff (evs : list Event) (w : World) :
  lastUpdate (display (run w evs)) = None
  <-> lastUpdate (display w) = None /\ noAnswer evs.
Proof.
  revert w; induction evs as [|ev evs IH]; intros w.
  - simpl. split; [intros H; split; [exact H | intros p []] | now intros [H _]].
  - cbn [run fold_left]. fold (run (step w ev) evs). rewrite IH.
    destruct ev as [| | p]; cbn [step].
    + split; intros [H Hn]; (split; [exact H|]); intros q Hq.
      * destruct Hq as [Hq | Hq]; [discriminate | now apply Hn].
      * apply Hn. now right.
    + split; intros [H Hn]; (split; [exact H|]); intros q Hq.
      * destruct Hq as [Hq | Hq]; [discriminate | now apply Hn].
      * apply Hn. now right.
    + destruct (settle_cases p w) as [(e & _ & Ha & H) | (d & _ & Ha & H)]; rewrite H.
      * split; intros [Hl Hn]; (split; [exact Hl|]); intros q Hq.
        -- destruct Hq as [Hq | Hq]; [injection Hq as <-; exact Ha | now apply Hn].
        -- apply Hn. now right.
      * split; [intros [Hl _]; discriminate|].
        intros [_ Hn]. rewrite (Hn p (or_introl eq_refl)) in Ha. discriminate.
Qed.

(** X21. The time of the last update appears with the first answer:
    from mount on, it is null exactly as long as no poll has answered,
    failed polls notwithstanding. *)
Theorem lastUpdate_appears_with_first_answer (evs : list Event) :
  lastUpdate (display (run mounted evs)) = None <-> noAnswer evs.
Proof.
  rewrite lastUpdate_none_iff. split; [now intros [_ H] | intros H; now split].
Qed.

Lemma lastUpdate_appears_with_first_answer_witness :
  lastUpdate (display (run mounted [RequestSettled lostPoll; TimerFired])) = None.
Proof.
  apply (proj2 (lastUpdate_appears_with_first_answer
                  [RequestSettled lostPoll; TimerFired])).
  intros p [H | [H | []]]; try discriminate. injection H as <-. reflexivity.
Defined.
